(** * Shader microcode disassembler (src/util/disasm.c)

    A shallow embedding of the decoder of 96-bit shader instruction
    slots: the operand formatters, the ALU and FETCH decoders, the
    instruction dispatcher and the control-flow walker with its resync
    loops.

    Conventions of the embedding:
    - a [uint32_t] is a [Z] with the wrap-around written out ([wrap32]);
    - the input buffer is the list of its words; a read outside the list
      (or outside one of the constant tables) is undefined behaviour in C
      and is the outcome [Fault] here;
    - what the program prints is modelled as the list of its printing
      calls ([event]), each carrying the text it wrote. *)

From Stdlib Require Import ZArith List String Ascii Lia Bool Permutation.
From Stdlib Require Import DecimalString HexadecimalString.
Import ListNotations.

Local Open Scope string_scope.
Local Open Scope Z_scope.

(** ** Machine integers *)

Definition wrap32 (z : Z) : Z := z mod 2 ^ 32.

Definition INT_MAX : Z := 2 ^ 31 - 1.

(** the value of a [uint32_t] read back as an [int] *)
Definition signed32 (z : Z) : Z :=
  if z <? 2 ^ 31 then z else z - 2 ^ 32.

(** C's [!x] *)
Definition lognot (z : Z) : Z := if z =? 0 then 1 else 0.

(** ** The option monad of table and buffer reads *)

Definition obind {A B : Type} (m : option A) (f : A -> option B) : option B :=
  match m with
  | Some a => f a
  | None => None
  end.

Notation "x <-? m ;; k" := (obind m (fun x => k))
  (at level 61, m at next level, right associativity).

(** [a[i]] for a C array held as a list *)
Definition index {A : Type} (a : list A) (i : Z) : option A :=
  if i <? 0 then None else nth_error a (Z.to_nat i).

(** ** printf conversions *)

Definition TAB : string := String (ascii_of_nat 9) "".
Definition NL : string := String (ascii_of_nat 10) "".

Fixpoint zero_pad (n : nat) (s : string) : string :=
  match n with
  | O => s
  | S n' => zero_pad n' (String "0" s)
  end.

Definition pad0 (width : nat) (s : string) : string :=
  zero_pad (width - String.length s) s.

(** [%u] *)
Definition fmt_u (z : Z) : string :=
  DecimalString.NilZero.string_of_uint (N.to_uint (Z.to_N z)).

(** [%x] *)
Definition fmt_x (z : Z) : string :=
  HexadecimalString.NilZero.string_of_uint (N.to_hex_uint (Z.to_N z)).

(** [%08x] *)
Definition fmt_08x (z : Z) : string := pad0 8 (fmt_x z).

(** [%02d], the argument being the 32 bits of an [int] *)
Definition fmt_02d (z : Z) : string :=
  let v := signed32 z in
  if v <? 0 then String "-" (pad0 1 (fmt_u (- v))) else pad0 2 (fmt_u v).

(** [printf("%08x %08x %08x\t", a, b, c)] *)
Definition fmt_words (a b c : Z) : string :=
  fmt_08x a ++ " " ++ fmt_08x b ++ " " ++ fmt_08x c ++ TAB.

(** ** Constant tables *)

Definition levels : list string :=
  [ TAB;
    TAB ++ TAB;
    TAB ++ TAB ++ TAB;
    TAB ++ TAB ++ TAB ++ TAB;
    TAB ++ TAB ++ TAB ++ TAB ++ TAB;
    TAB ++ TAB ++ TAB ++ TAB ++ TAB ++ TAB;
    TAB ++ TAB ++ TAB ++ TAB ++ TAB ++ TAB ++ TAB;
    TAB ++ TAB ++ TAB ++ TAB ++ TAB ++ TAB ++ TAB ++ TAB;
    TAB ++ TAB ++ TAB ++ TAB ++ TAB ++ TAB ++ TAB ++ TAB ++ TAB;
    "x";
    "x";
    "x";
    "x";
    "x";
    "x" ].

Definition print_raw : bool := true.
Definition print_unknown : bool := true.

Definition REG_MASK : Z := 0x1f.

Definition chan_names : list ascii := [ "x"; "y"; "z"; "w" ]%char.

(** [op_name[0x1f]]: 31 entries, the ones without initializer are null *)
Definition op_name : list (option string) :=
  [ Some "ADDv"; Some "MULv"; Some "MAXv"; None; None; None; None; None;
    None; None; None; Some "MULADDv"; None; None; None; Some "DOT4v";
    Some "DOT3v"; None; None; None; None; None; None; None;
    None; None; None; None; None; None; None ].

Definition fetch_type : string := "SAMPLE".

(** ** Operand formatters *)

(** the four iterations of the loop of [print_srcreg], from [i] on *)
Fixpoint srcreg_chans (n : nat) (i swiz : Z) : option string :=
  match n with
  | O => Some ""
  | S n' =>
      c <-? index chan_names (Z.land (wrap32 (swiz + i)) 0x3) ;;
      rest <-? srcreg_chans n' (i + 1) (Z.shiftr swiz 2) ;;
      Some (String c rest)
  end.

Definition print_srcreg (num type swiz negate : Z) : option string :=
  let neg := if negate =? 0 then "" else "-" in
  let reg := String (if type =? 0 then "R"%char else "C"%char) (fmt_u num) in
  if swiz =? 0 then Some (neg ++ reg)
  else
    chans <-? srcreg_chans 4 0 swiz ;;
    Some (neg ++ reg ++ "." ++ chans).

(** the four iterations of the loop of [print_dstreg], from [i] on *)
Fixpoint dstreg_chans (n : nat) (i mask : Z) : option string :=
  match n with
  | O => Some ""
  | S n' =>
      c <-? (if Z.land mask 0x1 =? 0 then Some "_"%char
             else index chan_names i) ;;
      rest <-? dstreg_chans n' (i + 1) (Z.shiftr mask 1) ;;
      Some (String c rest)
  end.

Definition print_dstreg (num mask : Z) : option string :=
  let reg := "R" ++ fmt_u num in
  if mask =? 0xf then Some reg
  else
    chans <-? dstreg_chans 4 0 mask ;;
    Some (reg ++ "." ++ chans).

(** ** Instruction decoders *)

(** one slot: [dwords[0]], [dwords[1]], [dwords[2]] *)
Definition slot : Type := (Z * Z * Z)%type.

(** the local variables of [disasm_alu] *)
Record alu_fields : Type := mk_alu {
  dst_reg : Z;
  dst_mask : Z;
  src1_reg : Z;
  src2_reg : Z;
  src1_type : Z;
  src2_type : Z;
  src1_swiz : Z;
  src2_swiz : Z;
  src1_neg : Z;
  src2_neg : Z;
  op : Z
}.

Definition alu_decode (dw : slot) : alu_fields :=
  let '(d0, d1, d2) := dw in
  {| dst_reg := Z.land d0 REG_MASK;
     dst_mask := Z.land (Z.shiftr d0 16) 0xf;
     src1_reg := Z.land (Z.shiftr d2 16) REG_MASK;
     src2_reg := Z.land (Z.shiftr d2 8) REG_MASK;
     src1_type := lognot (Z.land d2 0x80000000);
     src2_type := lognot (Z.land d2 0x40000000);
     src1_swiz := Z.land (Z.shiftr d1 16) 0xff;
     src2_swiz := Z.land (Z.shiftr d1 8) 0xff;
     src1_neg := Z.land d1 0x04000000;
     src2_neg := Z.land d1 0x02000000;
     op := Z.land (Z.shiftr d2 24) 0x1f |}.

(** the words of an ALU slot with the identified bit fields masked *)
Definition alu_unknown (dw : slot) : string :=
  let '(d0, d1, d2) := dw in
  fmt_words
    (Z.land d0 (Z.lnot (Z.lor REG_MASK (Z.shiftl 0xf 16))))
    (Z.land d1 (Z.lnot (Z.lor (Z.lor (Z.lor (Z.shiftl 0xff 16)
                                             (Z.shiftl 0xff 8))
                                      0x04000000) 0x02000000)))
    (Z.land d2 (Z.lnot (Z.lor (Z.lor (Z.lor (Z.lor (Z.shiftl REG_MASK 16)
                                                    (Z.shiftl REG_MASK 8))
                                             0x80000000) 0x40000000)
                              (Z.shiftl 0x1f 24)))).

(** the head of the ALU line: mnemonic, or [OP(n)] for a null entry *)
Definition alu_mnemonic (o : Z) : option string :=
  e <-? index op_name o ;;
  match e with
  | Some name => Some (TAB ++ "ALU:" ++ TAB ++ name)
  | None => Some (TAB ++ "ALU:" ++ TAB ++ "OP(" ++ fmt_u o ++ ")")
  end.

Definition disasm_alu (dw : slot) (level : Z) : option string :=
  let f := alu_decode dw in
  let unk := if print_unknown then alu_unknown dw else "" in
  head <-? alu_mnemonic (op f) ;;
  dst <-? print_dstreg (dst_reg f) (dst_mask f) ;;
  s1 <-? print_srcreg (src1_reg f) (src1_type f) (src1_swiz f) (src1_neg f) ;;
  s2 <-? print_srcreg (src2_reg f) (src2_type f) (src2_swiz f) (src2_neg f) ;;
  Some (unk ++ head ++ TAB ++ dst ++ " = " ++ s1 ++ ", " ++ s2 ++ NL).

Definition disasm_fetch (dw : slot) (level : Z) : option string :=
  let '(d0, d1, d2) := dw in
  let src_const := Z.land (Z.shiftr d0 20) 0xf in
  let src_reg := Z.land (Z.shiftr d0 5) REG_MASK in
  let dst_reg := Z.land (Z.shiftr d0 12) REG_MASK in
  let unk :=
    if print_unknown then
      fmt_words
        (Z.land d0 (Z.lnot (Z.lor (Z.lor (Z.shiftl REG_MASK 5)
                                         (Z.shiftl REG_MASK 12))
                                  (Z.shiftl 0xf 20))))
        (Z.land d1 (Z.lnot 0x00000000))
        (Z.land d2 (Z.lnot 0x00000000))
    else "" in
  Some (unk ++ TAB ++ "FETCH:" ++ TAB ++ fetch_type ++ TAB ++
        "R" ++ fmt_u dst_reg ++ " = R" ++ fmt_u src_reg ++
        " CONST(" ++ fmt_u src_const ++ ")" ++ NL).

Definition disasm_inst (dw : slot) (level : Z) : option string :=
  let '(d0, d1, d2) := dw in
  prefix <-? index levels level ;;
  let raw := if print_raw then fmt_words d0 d1 d2 else "" in
  body <-? (if Z.land d2 0xf0000000 =? 0 then disasm_fetch dw level
            else disasm_alu dw level) ;;
  Some (prefix ++ raw ++ body).

Definition disasm_cf (dw : slot) (level idx off cnt : Z) : option string :=
  let '(d0, d1, d2) := dw in
  prefix <-? index levels level ;;
  let raw := if print_raw then fmt_words d0 d1 d2 else "" in
  let unk :=
    if print_unknown then
      fmt_words (Z.land d0 (Z.lnot 0x0000ffff))
                (Z.land d1 (Z.lnot 0x00000000))
                (Z.land d2 (Z.lnot 0x00000000))
    else "" in
  Some (prefix ++ raw ++ unk ++ fmt_02d idx ++ "  CF:" ++ TAB ++
        "ADDR(0x" ++ fmt_x off ++ ") CNT(0x" ++ fmt_x cnt ++ ")" ++ NL).

(** ** The trace of a run *)

(** the three places where [disasm] calls [disasm_inst] *)
Inductive site : Type :=
| Body      (* the [j] loop of a CF entry *)
| Resync    (* the guard before a CF entry *)
| Trailing. (* the guard after the last CF entry *)

(** One printing call of [disasm].  [ECf] and [EInst] record the word
    offset of the slot the call was given, next to its arguments and the
    text it printed. *)
Inductive event : Type :=
| EMark                                         (* printf("?") *)
| ECf (at_word idx off cnt : Z) (text : string) (* disasm_cf(...) *)
| EInst (s : site) (at_word : Z) (text : string). (* disasm_inst(...) *)

(** ** The monad of [disasm]: a writer of events with two ways to stop *)

Inductive result (A : Type) : Type :=
| Done (a : A) (out : list event)
| Fault (out : list event)     (* a read outside the buffer or a table *)
| Timeout (out : list event).  (* a [while] loop out of fuel *)

Arguments Done {A} a out.
Arguments Fault {A} out.
Arguments Timeout {A} out.

Definition ret {A : Type} (a : A) : result A := Done a [].

Definition bind {A B : Type} (m : result A) (f : A -> result B) : result B :=
  match m with
  | Done a out =>
      match f a with
      | Done b out' => Done b (out ++ out')
      | Fault out' => Fault (out ++ out')
      | Timeout out' => Timeout (out ++ out')
      end
  | Fault out => Fault out
  | Timeout out => Timeout out
  end.

Notation "x <- m ;; k" := (bind m (fun x => k))
  (at level 61, m at next level, right associativity).
Notation "m ;;; k" := (bind m (fun _ => k))
  (at level 61, right associativity).

Definition emit (e : event) : result unit := Done tt [e].

(** the events printed, whatever the outcome *)
Definition events_of {A : Type} (r : result A) : list event :=
  match r with
  | Done _ out => out
  | Fault out => out
  | Timeout out => out
  end.

(** ** Reading the buffer *)

(** [dwords[i]] *)
Definition read (dwords : list Z) (i : Z) : result Z :=
  match index dwords i with
  | Some w => ret w
  | None => Fault []
  end.

(** the three words at [dwords + off] *)
Definition slot_at (dwords : list Z) (off : Z) : option slot :=
  d0 <-? index dwords off ;;
  d1 <-? index dwords (off + 1) ;;
  d2 <-? index dwords (off + 2) ;;
  Some (d0, d1, d2).

(** [disasm_inst(dwords + alu_off, level)] *)
Definition call_inst (s : site) (dwords : list Z) (alu_off level : Z)
  : result unit :=
  match dw <-? slot_at dwords alu_off ;; disasm_inst dw level with
  | Some text => emit (EInst s alu_off text)
  | None => Fault []
  end.

(** [disasm_cf(&dwords[idx], level, i, off, cnt)] *)
Definition call_cf (dwords : list Z) (idx level i off cnt : Z)
  : result unit :=
  match dw <-? slot_at dwords idx ;; disasm_cf dw level i off cnt with
  | Some text => emit (ECf idx i off cnt text)
  | None => Fault []
  end.

(** ** The control-flow walker *)

(** [while (alu_off != target) { printf("?"); disasm_inst(...); alu_off += 3; }] *)
Fixpoint resync (fuel : nat) (s : site) (dwords : list Z) (level : Z)
    (target alu_off : Z) : result Z :=
  if alu_off =? target then ret alu_off
  else
    match fuel with
    | O => Timeout []
    | S fuel' =>
        emit EMark ;;;
        call_inst s dwords alu_off level ;;;
        resync fuel' s dwords level target (wrap32 (alu_off + 3))
    end.

(** [for (j = 0; j < cnt; j++) { disasm_inst(...); alu_off += 3; }] *)
Fixpoint body (n : nat) (dwords : list Z) (level : Z) (alu_off : Z)
  : result Z :=
  match n with
  | O => ret alu_off
  | S n' =>
      call_inst Body dwords alu_off level ;;;
      body n' dwords level (wrap32 (alu_off + 3))
  end.

(** one iteration of the [i] loop, from the cursor [alu_off] *)
Definition cf_entry (fuel : nat) (dwords : list Z) (sizedwords level : Z)
    (i alu_off : Z) : result Z :=
  let idx := wrap32 (i * 3) in
  w <- read dwords idx ;;
  let off := Z.land w 0x0fff in
  let cnt := Z.shiftr (Z.land w 0xf000) 12 in
  oc <- (if w =? 0 then
           emit EMark ;;;
           let off := alu_off / 3 in
           ret (off, wrap32 (Z.quot sizedwords 3 - off))
         else ret (off, cnt)) ;;
  let '(off, cnt) := oc in
  alu_off <- resync fuel Resync dwords level (wrap32 (off * 3)) alu_off ;;
  call_cf dwords idx level i off cnt ;;;
  body (Z.to_nat cnt) dwords level alu_off.

(** [for (i = ...; i < first_off; i++)], [n] iterations being left *)
Fixpoint cf_loop (n : nat) (fuel : nat) (dwords : list Z)
    (sizedwords level : Z) (i alu_off : Z) : result Z :=
  match n with
  | O => ret alu_off
  | S n' =>
      alu_off <- cf_entry fuel dwords sizedwords level i alu_off ;;
      cf_loop n' fuel dwords sizedwords level (wrap32 (i + 1)) alu_off
  end.

(** [disasm] up to its [return 0]; the value is the final cursor.
    Every iteration of a [while] loop reads a slot at a new cursor, so
    the length of the buffer bounds their number. *)
Definition disasm_run (dwords : list Z) (sizedwords level : Z) : result Z :=
  let fuel := S (List.length dwords) in
  w0 <- read dwords 0 ;;
  let first_off := Z.land w0 0xfff in
  let alu_off := wrap32 (first_off * 3) in
  alu_off <- (if w0 =? 0 then
                let off := 1 in
                let cnt := wrap32 (Z.quot sizedwords 3 - off) in
                call_cf dwords 0 level 0 off cnt ;;;
                ret (wrap32 (off * 3))
              else ret alu_off) ;;
  alu_off <- cf_loop (Z.to_nat first_off) fuel dwords sizedwords level
               0 alu_off ;;
  resync fuel Trailing dwords level (wrap32 sizedwords) alu_off.

Definition disasm (dwords : list Z) (sizedwords level : Z) : result Z :=
  disasm_run dwords sizedwords level ;;;
  ret 0.

(** ** Reading a trace *)

Definition cf_entry_of (e : event) : list (Z * Z * Z) :=
  match e with
  | ECf _ i off cnt _ => [(i, off, cnt)]
  | _ => []
  end.

Definition cf_slot_of (e : event) : list Z :=
  match e with
  | ECf a _ _ _ _ => [a]
  | _ => []
  end.

Definition inst_slot_of (e : event) : list Z :=
  match e with
  | EInst _ a _ => [a]
  | _ => []
  end.

Definition site_eqb (s s' : site) : bool :=
  match s, s' with
  | Body, Body | Resync, Resync | Trailing, Trailing => true
  | _, _ => false
  end.

Definition inst_slot_at (s : site) (e : event) : list Z :=
  match e with
  | EInst s' a _ => if site_eqb s s' then [a] else []
  | _ => []
  end.

(** [(idx, off, cnt)] of the CF entries printed, in order *)
Definition cf_entries (evs : list event) : list (Z * Z * Z) :=
  flat_map cf_entry_of evs.

(** word offsets of the slots printed as CF entries, in order *)
Definition cf_slots (evs : list event) : list Z := flat_map cf_slot_of evs.

(** word offsets of the slots decoded as instructions, in order *)
Definition inst_slots (evs : list event) : list Z :=
  flat_map inst_slot_of evs.

(** word offsets of the slots decoded as instructions at site [s] *)
Definition inst_slots_at (s : site) (evs : list event) : list Z :=
  flat_map (inst_slot_at s) evs.

(** word offsets of all the slots decoded, in order *)
Definition decoded_slots (evs : list event) : list Z :=
  flat_map (fun e => cf_slot_of e ++ inst_slot_of e)%list evs.

(** an event without its text *)
Inductive shape : Type :=
| SMark
| SCf (at_word idx off cnt : Z)
| SInst (s : site) (at_word : Z).

Definition shape_of (e : event) : shape :=
  match e with
  | EMark => SMark
  | ECf a i off cnt _ => SCf a i off cnt
  | EInst s a _ => SInst s a
  end.

(** the text printed *)
Fixpoint output (evs : list event) : string :=
  match evs with
  | [] => ""
  | EMark :: evs' => "?" ++ output evs'
  | ECf _ _ _ _ text :: evs' => text ++ output evs'
  | EInst _ _ text :: evs' => text ++ output evs'
  end.

Definition is_done {A : Type} (r : result A) : bool :=
  match r with
  | Done _ _ => true
  | _ => false
  end.

Definition is_fault {A : Type} (r : result A) : bool :=
  match r with
  | Fault _ => true
  | _ => false
  end.

Definition is_timeout {A : Type} (r : result A) : bool :=
  match r with
  | Timeout _ => true
  | _ => false
  end.

(** word offsets [a, a + 3, ..] of [n] slots *)
Fixpoint stride3 (a : Z) (n : nat) : list Z :=
  match n with
  | O => []
  | S n' => a :: stride3 (a + 3) n'
  end.

(** word offsets of the slots [0 .. n - 1] of a buffer *)
Definition slot_offsets (n : nat) : list Z := stride3 0 n.

(** [n] tab characters *)
Fixpoint tabs (n : nat) : string :=
  match n with
  | O => ""
  | S n' => TAB ++ tabs n'
  end.

(** the example of the comment that heads the source *)
Definition sample : list Z :=
  [ 0x00955002; 0x00001000; 0xc4000000;
    0x00001007; 0x00002000; 0x00000000;
    0x10002021; 0x1ffff688; 0x00000002;
    0x10101021; 0x1ffff688; 0x00000002;
    0x10200001; 0x1ffff688; 0x00000002;
    0x140f0001; 0x00220000; 0xe0020100;
    0x140f0000; 0x00008800; 0xe1000100;
    0x140f8000; 0x00430000; 0xa1000000 ].

(** ** Vocabulary of the statements *)

(** the prefix that the table gives for level [L] *)
Definition level_prefix (L : Z) : string :=
  if L <=? 8 then tabs (Z.to_nat (L + 1)) else "x".

(** the character of channel [i] of a destination mask *)
Definition dst_chan (mask : Z) (i : nat) : ascii :=
  if Z.testbit mask (Z.of_nat i) then nth i chan_names "?"%char
  else "_"%char.

(** the [i]-th 2-bit group of a swizzle *)
Definition swiz_field (swiz : Z) (i : nat) : Z :=
  Z.land (Z.shiftr swiz (2 * Z.of_nat i)) 3.

(** the character of destination position [i] of a swizzle *)
Definition src_chan (swiz : Z) (i : nat) : ascii :=
  nth (Z.to_nat ((swiz_field swiz i + Z.of_nat i) mod 4)) chan_names
      "?"%char.

(** the table "Interpretation of swizzle fields" of the source comment:
    the channel that field value [f] selects at position [i] *)
Definition swizzle_table (i : nat) (f : Z) : ascii :=
  match i, f with
  | 0%nat, 0 => "x" | 0%nat, 1 => "y" | 0%nat, 2 => "z" | 0%nat, 3 => "w"
  | 1%nat, 3 => "x" | 1%nat, 0 => "y" | 1%nat, 1 => "z" | 1%nat, 2 => "w"
  | 2%nat, 2 => "x" | 2%nat, 3 => "y" | 2%nat, 0 => "z" | 2%nat, 1 => "w"
  | 3%nat, 0 => "w" | 3%nat, 1 => "x" | 3%nat, 2 => "y" | 3%nat, 3 => "z"
  | _, _ => "?"
  end%char.

(** bits [lo .. lo + len - 1] of a word *)
Definition bit_field (w lo len : Z) : Z := (w / 2 ^ lo) mod 2 ^ len.

(** the mnemonics that the table names *)
Definition known_mnemonic (n : Z) : option string :=
  match n with
  | 0 => Some "ADDv"
  | 1 => Some "MULv"
  | 2 => Some "MAXv"
  | 11 => Some "MULADDv"
  | 15 => Some "DOT4v"
  | 16 => Some "DOT3v"
  | _ => None
  end.

Definition mnemonic_text (n : Z) : string :=
  TAB ++ "ALU:" ++ TAB ++
  match known_mnemonic n with
  | Some name => name
  | None => "OP(" ++ fmt_u n ++ ")"
  end.

Definition mnemonic_ok (n : Z) : bool :=
  match alu_mnemonic n with
  | Some s => String.eqb s (mnemonic_text n)
  | None => false
  end.

(** the scenario of the source comment: the fourth ALU line *)
Definition alu_scenario : slot := (0x140f0001, 0x00220000, 0xe0020100).

(** an ALU slot with all five opcode bits set *)
Definition alu_op31 : slot := (0x140f0001, 0x00220000, 0xff020100).

(** what a loop that ran from the cursor [a] to the cursor [a'] has
    decoded: [n] instruction slots in a row *)
Definition advanced (a a' : Z) (evs : list event) (n : nat) : Prop :=
  a' = a + 3 * Z.of_nat n /\ inst_slots evs = stride3 a n.

(** the marks and instructions of a guard that skips the slots at
    [a, a + 3, ..] *)
Definition skipped (s : site) (a : Z) (n : nat) : list shape :=
  flat_map (fun x => [SMark; SInst s x]) (stride3 a n).

(** two CF entries, the second with an address past the 4 slots of the
    buffer *)
Definition entry_past_end : list Z :=
  [ 0x00001002; 0x00000000; 0x00000000;
    0x00000005; 0x00000000; 0x00000000;
    0x10002021; 0x1ffff688; 0x00000002;
    0x10101021; 0x1ffff688; 0x00000002 ].

(** two CF entries, the second with the address of the first: its guard
    starts with the cursor at word 9 and the target at word 6 *)
Definition backward_entry : list Z :=
  [ 0x00001002; 0x00000000; 0x00000000;
    0x00000002; 0x00000000; 0x00000000;
    0x10002021; 0x1ffff688; 0x00000002 ].

(** whether [disasm_inst(dwords + a, level)] stays inside the buffer and
    the tables: the slot is there, the level has an entry in [levels]
    and the opcode field is not 31 *)
Definition slot_decodable (dwords : list Z) (level a : Z) : bool :=
  match slot_at dwords a with
  | Some (_, _, d2) =>
      (0 <=? level) && (level <=? 14) && negb (bit_field d2 24 5 =? 31)
  | None => false
  end.

(** the position of a channel name in [chan_names] *)
Definition chan_index (c : ascii) : Z :=
  if Ascii.eqb c "x" then 0
  else if Ascii.eqb c "y" then 1
  else if Ascii.eqb c "z" then 2
  else 3.

(** the swizzle read back from the channel characters of a source
    operand, position [i] first *)
Fixpoint swiz_of_chans (i : Z) (s : string) : Z :=
  match s with
  | EmptyString => 0
  | String c s' => (chan_index c - i) mod 4 + 4 * swiz_of_chans (i + 1) s'
  end.

(** the mask read back from the channel characters of a destination *)
Fixpoint mask_of_chans (s : string) : Z :=
  match s with
  | EmptyString => 0
  | String c s' => (if Ascii.eqb c "_" then 0 else 1) + 2 * mask_of_chans s'
  end.

Definition cf_head_of (e : event) : list (Z * Z) :=
  match e with
  | ECf a i _ _ _ => [(a, i)]
  | _ => []
  end.

(** the word offset and the index of the CF entries printed, in order *)
Definition cf_heads (evs : list event) : list (Z * Z) :=
  flat_map cf_head_of evs.

(** [k] CF entries in a row from the index [i] on, the entry of index
    [j] being made from the slot at word [3 * j] *)
Fixpoint heads (i : Z) (k : nat) : list (Z * Z) :=
  match k with
  | O => []
  | S k' => (3 * i, i) :: heads (i + 1) k'
  end.

(** [out] printed before the run [r] *)
Definition prepend {A : Type} (out : list event) (r : result A) : result A :=
  match r with
  | Done a o => Done a (out ++ o)
  | Fault o => Fault (out ++ o)
  | Timeout o => Timeout (out ++ o)
  end.

(** what a part of [disasm] that started at the cursor [a] in a buffer
    of [len] words has done, however it ended: decoded [n] instruction
    slots in a row, all inside the buffer, and moved the cursor past
    them if it came to its end *)
Definition walked (len a : Z) (r : result Z) (n : nat) : Prop :=
  inst_slots (events_of r) = stride3 a n /\
  (forall a' out, r = Done a' out -> a' = a + 3 * Z.of_nat n) /\
  (n <> 0%nat -> 0 <= a /\ a + 3 * Z.of_nat n <= len).

(** the indices of the CF entries printed, in order *)
Definition cf_indices (evs : list event) : list Z :=
  map (fun e => fst (fst e)) (cf_entries evs).

(** whether the target of a guard is the cursor or lies a whole number
    of slots ahead of it, inside a buffer of [len] words *)
Definition ahead (len target a : Z) : Prop :=
  target = a \/
  (0 <= a /\ a < target <= len /\ (target - a) mod 3 = 0).

(** the number of CF entries that the first word of the buffer declares *)
Definition first_off (dwords : list Z) : Z :=
  match index dwords 0 with
  | Some w0 => Z.land w0 0xfff
  | None => 0
  end.

(** index, address and count that the header word of the CF entry [i]
    declares *)
Definition header_entry (dwords : list Z) (i : Z) : Z * Z * Z :=
  match index dwords (3 * i) with
  | Some w => (i, Z.land w 0x0fff, Z.shiftr (Z.land w 0xf000) 12)
  | None => (i, 0, 0)
  end.

Fixpoint header_entries (dwords : list Z) (i : Z) (m : nat)
  : list (Z * Z * Z) :=
  match m with
  | O => []
  | S m' => header_entry dwords i :: header_entries dwords (i + 1) m'
  end.

(** whether the [m] CF entries from the index [i] on declare ranges
    that follow one another from the word [cursor] on, none of their
    header words being 0; the word after the last range *)
Fixpoint tiled (m : nat) (dwords : list Z) (i cursor : Z) : option Z :=
  match m with
  | O => Some cursor
  | S m' =>
      match index dwords (3 * i) with
      | Some w =>
          if (w =? 0) || negb (Z.land w 0x0fff * 3 =? cursor) then None
          else tiled m' dwords (i + 1)
                     (cursor + 3 * Z.shiftr (Z.land w 0xf000) 12)
      | None => None
      end
  end.

(** whether the ranges of the CF entries tile the slots after the
    header region up to the end of the buffer *)
Definition well_tiled (dwords : list Z) : bool :=
  let f := first_off dwords in
  match index dwords 0, tiled (Z.to_nat f) dwords 0 (3 * f) with
  | Some _, Some c => c =? Z.of_nat (List.length dwords)
  | _, _ => false
  end.

(** whether the slots from the slot [f] on are decodable *)
Definition insts_decodable (dwords : list Z) (level f : Z) : bool :=
  forallb (slot_decodable dwords level)
          (stride3 (3 * f)
                   (Z.to_nat (Z.of_nat (List.length dwords) / 3 - f))).




(** * Properties *)

(** ** Bit-level facts *)

Lemma wrap32_small (z : Z) : 0 <= z < 2 ^ 32 -> wrap32 z = z.
Proof. intros H. unfold wrap32. apply Z.mod_small. exact H. Qed.

Lemma land_3_mod (a : Z) : Z.land a 3 = a mod 4.
Proof. change 3 with (Z.ones 2). rewrite Z.land_ones by lia. reflexivity. Qed.

Lemma wrap32_mod4 (a : Z) : wrap32 a mod 4 = a mod 4.
Proof.
  unfold wrap32. apply Z.mod_mod_divide.
  exists (2 ^ 30). reflexivity.
Qed.

Lemma land_1_testbit (m : Z) :
  (Z.land m 1 =? 0) = negb (Z.testbit m 0).
Proof.
  change 1 with (Z.ones 1). rewrite Z.land_ones by lia.
  rewrite Z.bit0_odd. change (2 ^ 1) with 2.
  rewrite Zmod_odd. destruct (Z.odd m); reflexivity.
Qed.

Lemma index_bounds {A : Type} (a : list A) (i : Z) :
  0 <= i < Z.of_nat (List.length a) -> exists x, index a i = Some x.
Proof.
  intros H. unfold index.
  destruct (i <? 0) eqn:E; [apply Z.ltb_lt in E; lia|].
  destruct (nth_error a (Z.to_nat i)) eqn:N; [eauto|].
  apply nth_error_None in N. lia.
Qed.

Lemma index_outside {A : Type} (a : list A) (i : Z) :
  i < 0 \/ Z.of_nat (List.length a) <= i -> index a i = None.
Proof.
  intros H. unfold index.
  destruct (i <? 0) eqn:E; [reflexivity|].
  apply Z.ltb_ge in E. apply nth_error_None. lia.
Qed.

Lemma index_Some_bounds {A : Type} (a : list A) (i : Z) (x : A) :
  index a i = Some x -> 0 <= i < Z.of_nat (List.length a).
Proof.
  unfold index. intros H.
  destruct (i <? 0) eqn:E; [discriminate|].
  apply Z.ltb_ge in E.
  assert (nth_error a (Z.to_nat i) <> None) as N by congruence.
  apply nth_error_Some in N. lia.
Qed.

(** ** The indentation table *)

Lemma level_cases (L : Z) :
  0 <= L <= 14 ->
  L = 0 \/ L = 1 \/ L = 2 \/ L = 3 \/ L = 4 \/ L = 5 \/ L = 6 \/ L = 7 \/
  L = 8 \/ L = 9 \/ L = 10 \/ L = 11 \/ L = 12 \/ L = 13 \/ L = 14.
Proof. lia. Qed.

Lemma levels_spec (L : Z) :
  0 <= L <= 14 -> index levels L = Some (level_prefix L).
Proof.
  intros H. destruct (level_cases L H) as
    [->|[->|[->|[->|[->|[->|[->|[->|[->|[->|[->|[->|[->|[->| ->]]]]]]]]]]]]]];
    reflexivity.
Qed.

(** C10: for a level [L] in [0 .. 14] the prefix of a CF or instruction
    line is an entry of the 15-entry table [levels]: [L + 1] tab
    characters for [L <= 8] (one tab at level 0), the single character
    [x] for [9 <= L <= 14]; this prefix heads what [disasm_cf] and
    [disasm_inst] print.  A level outside [0 .. 14] indexes past the
    table: neither routine has a defined output. *)
Theorem levels_prefix_in_bounds (L : Z) :
  List.length levels = 15%nat /\
  (0 <= L <= 14 ->
   exists prefix,
     index levels L = Some prefix /\
     (L <= 8 -> prefix = tabs (Z.to_nat (L + 1))) /\
     (9 <= L -> prefix = "x") /\
     (forall dw idx off cnt,
        exists rest, disasm_cf dw L idx off cnt = Some (prefix ++ rest)) /\
     (forall dw text,
        disasm_inst dw L = Some text -> exists rest, text = prefix ++ rest)) /\
  (L < 0 \/ 14 < L ->
   index levels L = None /\
   (forall dw idx off cnt, disasm_cf dw L idx off cnt = None) /\
   (forall dw, disasm_inst dw L = None)).
Proof.
  split; [reflexivity|]. split.
  - intros H. exists (level_prefix L).
    pose proof (levels_spec L H) as E.
    split; [exact E|]. split; [|split; [|split]].
    + intros H8. unfold level_prefix.
      destruct (L <=? 8) eqn:B; [reflexivity|]. apply Z.leb_gt in B. lia.
    + intros H9. unfold level_prefix.
      destruct (L <=? 8) eqn:B; [|reflexivity]. apply Z.leb_le in B. lia.
    + intros [[d0 d1] d2] idx off cnt. unfold disasm_cf. rewrite E. cbn [obind].
      eexists. reflexivity.
    + intros [[d0 d1] d2] text. unfold disasm_inst. rewrite E. cbn [obind].
      destruct (if Z.land d2 4026531840 =? 0
                then disasm_fetch (d0, d1, d2) L
                else disasm_alu (d0, d1, d2) L) as [b|]; cbn [obind];
        [|discriminate].
      intros [= <-]. eexists. reflexivity.
  - intros H.
    assert (index levels L = None) as E
      by (apply index_outside; cbn [List.length levels]; lia).
    split; [exact E|]. split.
    + intros [[d0 d1] d2] idx off cnt. unfold disasm_cf. rewrite E. reflexivity.
    + intros [[d0 d1] d2]. unfold disasm_inst. rewrite E. reflexivity.
Qed.

Lemma levels_prefix_in_bounds_witness :
  (exists prefix,
     index levels 0 = Some prefix /\
     (0 <= 8 -> prefix = tabs (Z.to_nat (0 + 1))) /\
     (9 <= 0 -> prefix = "x") /\
     (forall dw idx off cnt,
        exists rest, disasm_cf dw 0 idx off cnt = Some (prefix ++ rest)) /\
     (forall dw text,
        disasm_inst dw 0 = Some text -> exists rest, text = prefix ++ rest)) /\
  (index levels 15 = None /\
   (forall dw idx off cnt, disasm_cf dw 15 idx off cnt = None) /\
   (forall dw, disasm_inst dw 15 = None)).
Proof.
  split.
  - apply (proj1 (proj2 (levels_prefix_in_bounds 0))). lia.
  - apply (proj2 (proj2 (levels_prefix_in_bounds 15))). lia.
Defined.

(** ** Operand formatters *)

Lemma append_empty_r (s : string) : s ++ "" = s.
Proof. induction s as [|c s IH]; cbn; [reflexivity | now rewrite IH]. Qed.

Lemma shiftr_testbit0 (m k : Z) :
  0 <= k -> (Z.land (Z.shiftr m k) 1 =? 0) = negb (Z.testbit m k).
Proof.
  intros H. rewrite land_1_testbit, Z.shiftr_spec by lia. reflexivity.
Qed.

(** C9: [print_dstreg] prints [R<num>] and nothing more for the mask
    [0b1111]; for any other mask it adds a dot and exactly four
    characters, the [i]-th being the name of channel [i] (x, y, z, w)
    when bit [i] of the mask is set and an underscore otherwise. *)
Theorem print_dstreg_format (num mask : Z) :
  print_dstreg num mask =
  Some ("R" ++ fmt_u num ++
        (if mask =? 0xf then ""
         else "." ++ string_of_list_ascii
                       (map (dst_chan mask) [0; 1; 2; 3]%nat))).
Proof.
  unfold print_dstreg. destruct (mask =? 15) eqn:E.
  - rewrite append_empty_r. reflexivity.
  - cbn [dstreg_chans].
    rewrite !Z.shiftr_shiftr by lia.
    rewrite land_1_testbit, !shiftr_testbit0 by lia.
    cbn [map string_of_list_ascii]. unfold dst_chan.
    change (Z.of_nat 0) with 0. change (Z.of_nat 1) with 1.
    change (Z.of_nat 2) with 2. change (Z.of_nat 3) with 3.
    change (1 + 1 + 1) with 3. change (1 + 1) with 2.
    destruct (Z.testbit mask 0), (Z.testbit mask 1),
             (Z.testbit mask 2), (Z.testbit mask 3); reflexivity.
Qed.

Lemma mod4_cases (a : Z) :
  a mod 4 = 0 \/ a mod 4 = 1 \/ a mod 4 = 2 \/ a mod 4 = 3.
Proof. pose proof (Z.mod_pos_bound a 4). lia. Qed.

Lemma chan_lookup (a i : Z) :
  index chan_names (Z.land (wrap32 (a + i)) 0x3) =
  Some (nth (Z.to_nat ((Z.land a 3 + i) mod 4)) chan_names "?"%char).
Proof.
  rewrite !land_3_mod, wrap32_mod4, Z.add_mod_idemp_l by lia.
  destruct (mod4_cases (a + i)) as [-> | [-> | [-> | ->]]]; reflexivity.
Qed.

Lemma src_chan_named (swiz : Z) (i : nat) : In (src_chan swiz i) chan_names.
Proof.
  unfold src_chan.
  destruct (mod4_cases (swiz_field swiz i + Z.of_nat i))
    as [-> | [-> | [-> | ->]]]; cbn; auto.
Qed.

Lemma src_chan_table (swiz : Z) (i : nat) :
  (i < 4)%nat -> src_chan swiz i = swizzle_table i (swiz_field swiz i).
Proof.
  intros H. unfold src_chan.
  assert (0 <= swiz_field swiz i < 4) as R.
  { unfold swiz_field. rewrite land_3_mod. apply Z.mod_pos_bound. lia. }
  revert R. generalize (swiz_field swiz i). intros f R.
  assert (f = 0 \/ f = 1 \/ f = 2 \/ f = 3) as [-> | [-> | [-> | ->]]]
    by lia;
    destruct i as [|[|[|[|i]]]]; try lia; reflexivity.
Qed.

(** C8: [print_srcreg] prints a minus sign first exactly when the negate
    flag is set, and the rest does not depend on the flag; then the class
    letter, C for a constant and R otherwise, and the register number;
    no channel suffix for the swizzle 0, and for any other swizzle a dot
    and exactly four characters of x, y, z, w, the one of position [i]
    being [chan_names[(field_i + i) mod 4]], where [field_i] is the
    [i]-th 2-bit group of the swizzle; this is the table of the source
    comment. *)
Theorem print_srcreg_format (num type swiz negate : Z) :
  print_srcreg num type swiz negate =
  Some ((if negate =? 0 then "" else "-") ++
        String (if type =? 0 then "R"%char else "C"%char) (fmt_u num) ++
        (if swiz =? 0 then ""
         else "." ++ string_of_list_ascii
                       (map (src_chan swiz) [0; 1; 2; 3]%nat))) /\
  Forall (fun i => In (src_chan swiz i) chan_names /\
                   src_chan swiz i = swizzle_table i (swiz_field swiz i))
         [0; 1; 2; 3]%nat.
Proof.
  split.
  - unfold print_srcreg. destruct (swiz =? 0) eqn:E.
    + cbn [append]. rewrite append_empty_r. reflexivity.
    + cbn [srcreg_chans].
      rewrite !Z.shiftr_shiftr by lia.
      rewrite !chan_lookup. cbn [obind map string_of_list_ascii].
      unfold src_chan, swiz_field.
      change (2 * Z.of_nat 0) with 0. change (2 * Z.of_nat 1) with 2.
      change (2 * Z.of_nat 2) with 4. change (2 * Z.of_nat 3) with 6.
      change (2 + 2 + 2) with 6. change (2 + 2) with 4.
      change (0 + 1 + 1 + 1) with 3. change (0 + 1 + 1) with 2.
      change (0 + 1) with 1.
      change (Z.of_nat 0) with 0. change (Z.of_nat 1) with 1.
      change (Z.of_nat 2) with 2. change (Z.of_nat 3) with 3.
      rewrite (Z.shiftr_0_r swiz). reflexivity.
  - repeat (apply Forall_cons;
            [split; [apply src_chan_named | apply src_chan_table; lia]|]).
    apply Forall_nil.
Qed.

(** ** The dispatcher *)

Lemma top_nibble_bits (n : Z) :
  0 <= n ->
  Z.testbit 0xf0000000 n = (28 <=? n) && (n <=? 31).
Proof.
  intros H. change 0xf0000000 with (Z.shiftl (Z.ones 4) 28).
  destruct (28 <=? n) eqn:L.
  - apply Z.leb_le in L. rewrite Z.shiftl_spec by lia.
    destruct (n <=? 31) eqn:U.
    + apply Z.leb_le in U. apply Z.ones_spec_low. lia.
    + apply Z.leb_gt in U. apply Z.ones_spec_high. lia.
  - apply Z.leb_gt in L. rewrite Z.shiftl_spec_low by lia. reflexivity.
Qed.

Lemma top_nibble_test (d2 : Z) :
  (Z.land d2 0xf0000000 =? 0) =
  negb (existsb (Z.testbit d2) [28; 29; 30; 31]).
Proof.
  cbn [existsb]. rewrite orb_false_r.
  destruct (Z.land d2 4026531840 =? 0) eqn:E.
  - apply Z.eqb_eq in E.
    assert (forall n, 28 <= n <= 31 -> Z.testbit d2 n = false) as B.
    { intros n Hn.
      assert (Z.testbit (Z.land d2 0xf0000000) n = false) as T
        by (rewrite E; apply Z.bits_0).
      rewrite Z.land_spec, top_nibble_bits in T by lia.
      replace ((28 <=? n) && (n <=? 31)) with true in T
        by (symmetry; apply andb_true_iff; split; apply Z.leb_le; lia).
      rewrite andb_true_r in T. exact T. }
    rewrite !B by lia. reflexivity.
  - apply Z.eqb_neq in E.
    destruct (Z.testbit d2 28 || (Z.testbit d2 29 ||
              (Z.testbit d2 30 || Z.testbit d2 31))) eqn:B;
      [reflexivity|].
    exfalso. apply E. apply Z.bits_inj'. intros n Hn.
    rewrite Z.bits_0, Z.land_spec, top_nibble_bits by lia.
    apply orb_false_iff in B. destruct B as [B28 B].
    apply orb_false_iff in B. destruct B as [B29 B].
    apply orb_false_iff in B. destruct B as [B30 B31].
    destruct (28 <=? n) eqn:L; [|apply andb_false_r].
    destruct (n <=? 31) eqn:U; [|apply andb_false_r].
    apply Z.leb_le in L. apply Z.leb_le in U.
    assert (n = 28 \/ n = 29 \/ n = 30 \/ n = 31) as [-> | [-> | [-> | ->]]]
      by lia;
      [rewrite B28 | rewrite B29 | rewrite B30 | rewrite B31]; reflexivity.
Qed.

(** C7: [disasm_inst] treats a slot as ALU, and hands it to
    [disasm_alu], exactly when one of the bits 28 to 31 of its third
    word is set ([dwords[2] & 0xf0000000] is not zero); otherwise the
    slot is a FETCH and goes to [disasm_fetch]. *)
Theorem disasm_inst_dispatch (d0 d1 d2 level : Z) :
  existsb (Z.testbit d2) [28; 29; 30; 31] =
    negb (Z.land d2 0xf0000000 =? 0) /\
  disasm_inst (d0, d1, d2) level =
    (prefix <-? index levels level ;;
     body <-? (if existsb (Z.testbit d2) [28; 29; 30; 31]
               then disasm_alu (d0, d1, d2) level
               else disasm_fetch (d0, d1, d2) level) ;;
     Some (prefix ++ fmt_words d0 d1 d2 ++ body)).
Proof.
  pose proof (top_nibble_test d2) as T.
  split.
  - rewrite T, negb_involutive. reflexivity.
  - unfold disasm_inst. rewrite T.
    destruct (existsb (Z.testbit d2) [28; 29; 30; 31]); reflexivity.
Qed.

(** ** The ALU decoder *)

Lemma land_shiftr_field (w lo len : Z) :
  0 <= lo -> 0 <= len ->
  Z.land (Z.shiftr w lo) (Z.ones len) = bit_field w lo len.
Proof.
  intros Hlo Hlen. unfold bit_field.
  rewrite Z.land_ones, Z.shiftr_div_pow2 by lia. reflexivity.
Qed.

(** the bit layout that [disasm_alu] reads *)
Lemma alu_decode_layout (d0 d1 d2 : Z) :
  let f := alu_decode (d0, d1, d2) in
  dst_reg f = bit_field d0 0 5 /\
  dst_mask f = bit_field d0 16 4 /\
  src1_reg f = bit_field d2 16 5 /\
  src2_reg f = bit_field d2 8 5 /\
  src1_swiz f = bit_field d1 16 8 /\
  src2_swiz f = bit_field d1 8 8 /\
  op f = bit_field d2 24 5.
Proof.
  cbn [alu_decode dst_reg dst_mask src1_reg src2_reg src1_swiz src2_swiz op].
  unfold REG_MASK.
  change 0x1f with (Z.ones 5). change 0xf with (Z.ones 4).
  change 0xff with (Z.ones 8).
  rewrite <- (Z.shiftr_0_r d0) at 1.
  rewrite !land_shiftr_field by lia. repeat split; reflexivity.
Qed.

(** opcodes 0 to 30 are looked up inside [op_name]: a named one prints
    its mnemonic, any other prints OP(n) *)
Lemma alu_mnemonic_below_31 (n : Z) :
  0 <= n <= 30 -> alu_mnemonic n = Some (mnemonic_text n).
Proof.
  intros H.
  assert (forallb mnemonic_ok (map Z.of_nat (seq 0 31)) = true) as F
    by (vm_compute; reflexivity).
  rewrite forallb_forall in F.
  assert (mnemonic_ok n = true) as M.
  { apply F. rewrite <- (Z2Nat.id n) by lia.
    apply in_map, in_seq. lia. }
  unfold mnemonic_ok in M.
  destruct (alu_mnemonic n) as [s|]; [|discriminate].
  apply String.eqb_eq in M. congruence.
Qed.

(** C3, as amended: the slot 0x140f0001, 0x00220000, 0xe0020100 has the
    opcode field (bits 24 to 28 of the third word) equal to 0, so
    [disasm_alu] prints ADDv; the destination is R1 with mask 0b1111
    (bits 0 to 4 and 16 to 19 of the first word), the sources are R2
    with swizzle 0x22 (bits 16 to 20 of the third word) and R1 without
    swizzle (bits 8 to 12), and the line is printed without leaving any
    table. *)
Theorem alu_scenario_decodes_ADDv (level : Z) :
  let '(d0, d1, d2) := alu_scenario in
  let f := alu_decode alu_scenario in
  op f = bit_field d2 24 5 /\ op f = 0 /\
  dst_reg f = bit_field d0 0 5 /\ dst_reg f = 1 /\
  dst_mask f = bit_field d0 16 4 /\ dst_mask f = 0xf /\
  src1_reg f = bit_field d2 16 5 /\ src1_reg f = 2 /\
  src2_reg f = bit_field d2 8 5 /\ src2_reg f = 1 /\
  src1_swiz f = 0x22 /\ src2_swiz f = 0 /\
  src1_type f = 0 /\ src2_type f = 0 /\
  src1_neg f = 0 /\ src2_neg f = 0 /\
  alu_mnemonic (op f) = Some (TAB ++ "ALU:" ++ TAB ++ "ADDv") /\
  disasm_alu alu_scenario level =
    Some ("14000000 00000000 20000000" ++ TAB ++
          TAB ++ "ALU:" ++ TAB ++ "ADDv" ++ TAB ++
          "R1 = R2.zyxw, R1" ++ NL).
Proof. cbv zeta. unfold alu_scenario. repeat split. Qed.

Lemma alu_scenario_is_not_MULv :
  ~ (op (alu_decode alu_scenario) = 1 /\
     alu_mnemonic (op (alu_decode alu_scenario)) =
       Some (TAB ++ "ALU:" ++ TAB ++ "MULv")).
Proof. intros [H _]. vm_compute in H. discriminate. Qed.

(** C4: the opcode 31, which the 5-bit field can hold, is one past the
    31 entries of [op_name]: [disasm_alu] reads outside the table, and
    so does a run of [disasm] that meets such a slot. *)
Theorem alu_opcode_31_leaves_table :
  op (alu_decode alu_op31) = 31 /\
  List.length op_name = 31%nat /\
  index op_name 31 = None /\
  alu_mnemonic 31 = None /\
  disasm_alu alu_op31 0 = None /\
  disasm_inst alu_op31 0 = None /\
  is_fault (disasm [0x1; 0; 0; 0x140f0001; 0x00220000; 0xff020100] 6 0)
    = true.
Proof. repeat split. Qed.

(** ** Laws of the monad *)

Lemma bind_ret_l {A B : Type} (a : A) (f : A -> result B) :
  bind (ret a) f = f a.
Proof. unfold bind, ret. destruct (f a); reflexivity. Qed.

Lemma bind_ret_r {A : Type} (m : result A) : bind m ret = m.
Proof. destruct m; cbn; rewrite ?app_nil_r; reflexivity. Qed.

Lemma bind_assoc {A B C : Type} (m : result A) (f : A -> result B)
    (g : B -> result C) :
  bind (bind m f) g = bind m (fun a => bind (f a) g).
Proof.
  destruct m as [a out| |]; cbn; [|reflexivity|reflexivity].
  destruct (f a) as [b out'| |]; cbn; [|reflexivity|reflexivity].
  destruct (g b); cbn; rewrite app_assoc; reflexivity.
Qed.

Lemma bind_Done_inv {A B : Type} (m : result A) (f : A -> result B)
    (b : B) (evs : list event) :
  bind m f = Done b evs ->
  exists a e1 e2, m = Done a e1 /\ f a = Done b e2 /\ evs = (e1 ++ e2)%list.
Proof.
  destruct m as [a out| |]; cbn; [|discriminate|discriminate].
  destruct (f a) as [b' out'| |] eqn:E; [|discriminate|discriminate].
  intros [= <- <-]. exists a, out, out'. auto.
Qed.

Lemma events_bind {A B : Type} (m : result A) (f : A -> result B) :
  events_of (bind m f) =
  (events_of m ++
   match m with
   | Done a _ => events_of (f a)
   | _ => []
   end)%list.
Proof.
  destruct m as [a out| |]; cbn; rewrite ?app_nil_r; try reflexivity.
  destruct (f a); reflexivity.
Qed.

Lemma is_timeout_bind {A B : Type} (m : result A) (f : A -> result B) :
  is_timeout m = false ->
  (forall a out, m = Done a out -> is_timeout (f a) = false) ->
  is_timeout (bind m f) = false.
Proof.
  intros Hm Hf. destruct m as [a out| |]; cbn in *; try congruence.
  specialize (Hf a out eq_refl). destruct (f a); cbn in *; congruence.
Qed.

(** ** Reads *)

Lemma slot_at_Some (dwords : list Z) (off : Z) (dw : slot) :
  slot_at dwords off = Some dw ->
  0 <= off /\ off + 2 < Z.of_nat (List.length dwords).
Proof.
  unfold slot_at. intros H.
  destruct (index dwords off) as [d0|] eqn:E0; [|discriminate].
  destruct (index dwords (off + 1)) as [d1|] eqn:E1; [|discriminate].
  destruct (index dwords (off + 2)) as [d2|] eqn:E2; [|discriminate].
  apply index_Some_bounds in E0. apply index_Some_bounds in E2. lia.
Qed.

Lemma call_inst_Done (s : site) (dwords : list Z) (a level : Z) (u : unit)
    (evs : list event) :
  call_inst s dwords a level = Done u evs ->
  exists dw text,
    slot_at dwords a = Some dw /\ disasm_inst dw level = Some text /\
    evs = [EInst s a text].
Proof.
  unfold call_inst. destruct (slot_at dwords a) as [dw|]; cbn [obind];
    [|discriminate].
  destruct (disasm_inst dw level) as [text|] eqn:E; [|discriminate].
  intros [= <-]. exists dw, text. auto.
Qed.

Lemma call_inst_events (s : site) (dwords : list Z) (a level : Z) :
  call_inst s dwords a level = Fault [] \/
  exists text, call_inst s dwords a level = Done tt [EInst s a text].
Proof.
  unfold call_inst.
  destruct (dw <-? slot_at dwords a;; disasm_inst dw level) as [text|];
    [right; exists text; reflexivity | left; reflexivity].
Qed.

Lemma call_cf_Done (dwords : list Z) (idx level i off cnt : Z) (u : unit)
    (evs : list event) :
  call_cf dwords idx level i off cnt = Done u evs ->
  exists dw text,
    slot_at dwords idx = Some dw /\
    disasm_cf dw level i off cnt = Some text /\
    evs = [ECf idx i off cnt text].
Proof.
  unfold call_cf. destruct (slot_at dwords idx) as [dw|]; cbn [obind];
    [|discriminate].
  destruct (disasm_cf dw level i off cnt) as [text|] eqn:E; [|discriminate].
  intros [= <-]. exists dw, text. auto.
Qed.

Lemma disasm_cf_defined (dw : slot) (level i off cnt : Z) :
  0 <= level <= 14 -> exists text, disasm_cf dw level i off cnt = Some text.
Proof.
  intros H. destruct dw as [[d0 d1] d2]. unfold disasm_cf.
  rewrite (levels_spec level H). cbn [obind]. eauto.
Qed.

(** ** The guards print no CF entry *)

Lemma resync_no_cf (fuel : nat) (s : site) (dwords : list Z)
    (level target a : Z) :
  cf_entries (events_of (resync fuel s dwords level target a)) = [].
Proof.
  revert a. induction fuel as [|fuel IH]; intros a; cbn [resync];
    destruct (a =? target); try reflexivity.
  rewrite !events_bind. unfold cf_entries in *. rewrite !flat_map_app.
  cbn [emit events_of flat_map cf_entry_of app].
  destruct (call_inst_events s dwords a level) as [-> | [text ->]];
    [reflexivity|].
  cbn [events_of flat_map cf_entry_of app]. apply IH.
Qed.

Lemma events_of_disasm (dwords : list Z) (sizedwords level : Z) :
  events_of (disasm dwords sizedwords level) =
  events_of (disasm_run dwords sizedwords level).
Proof.
  unfold disasm. rewrite events_bind.
  destruct (disasm_run dwords sizedwords level); cbn; rewrite ?app_nil_r;
    reflexivity.
Qed.

(** ** The header word 0 *)

(** C5: when the first word of the buffer is 0, [disasm] prints one CF
    entry and no other: the one of index 0 made from the first slot,
    with address 1 and count [sizedwords / 3 - 1]; what follows is the
    trailing guard run from the cursor 3 to the end of the buffer. *)
Theorem degenerate_header_single_cf (w1 w2 : Z) (rest : list Z)
    (sizedwords level : Z) :
  let dwords := 0 :: w1 :: w2 :: rest in
  sizedwords = Z.of_nat (List.length dwords) ->
  sizedwords <= INT_MAX ->
  0 <= level <= 14 ->
  exists text,
    disasm_cf (0, w1, w2) level 0 1 (sizedwords / 3 - 1) = Some text /\
    disasm_run dwords sizedwords level =
      (emit (ECf 0 0 1 (sizedwords / 3 - 1) text) ;;;
       resync (S (List.length dwords)) Trailing dwords level sizedwords 3) /\
    cf_entries (events_of (disasm dwords sizedwords level)) =
      [(0, 1, sizedwords / 3 - 1)].
Proof.
  intros dwords Hlen Hmax Hlevel.
  assert (3 <= sizedwords) as H3
    by (subst sizedwords dwords; cbn [List.length]; lia).
  unfold INT_MAX in Hmax.
  destruct (disasm_cf_defined (0, w1, w2) level 0 1 (sizedwords / 3 - 1)
              Hlevel) as [text Htext].
  exists text. split; [exact Htext|].
  assert (wrap32 (Z.quot sizedwords 3 - 1) = sizedwords / 3 - 1) as Hcnt.
  { rewrite Z.quot_div_nonneg by lia. apply wrap32_small.
    pose proof (Z.div_le_upper_bound sizedwords 3 (2 ^ 31)).
    pose proof (Z.div_le_lower_bound sizedwords 3 1). lia. }
  assert (disasm_run dwords sizedwords level =
          (emit (ECf 0 0 1 (sizedwords / 3 - 1) text) ;;;
           resync (S (List.length dwords)) Trailing dwords level
                  sizedwords 3)) as Hrun.
  { unfold disasm_run.
    change (read dwords 0) with (@ret Z 0). rewrite bind_ret_l.
    change (0 =? 0) with true. cbv iota.
    change (Z.to_nat (Z.land 0 4095)) with 0%nat. cbn [cf_loop].
    rewrite Hcnt. unfold call_cf.
    change (slot_at dwords 0) with (Some (0, w1, w2)). cbn [obind].
    rewrite Htext. rewrite (wrap32_small sizedwords) by lia.
    change (wrap32 (1 * 3)) with 3.
    rewrite bind_assoc. f_equal.
    rewrite !bind_ret_l. reflexivity. }
  split; [exact Hrun|].
  rewrite events_of_disasm, Hrun, events_bind.
  unfold cf_entries. rewrite flat_map_app. cbn [emit events_of flat_map
    cf_entry_of app].
  f_equal. apply resync_no_cf.
Qed.

Lemma degenerate_header_single_cf_witness :
  exists text,
    disasm_cf (0, 0, 0) 0 0 1 (6 / 3 - 1) = Some text /\
    disasm_run [0; 0; 0; 1; 2; 3] 6 0 =
      (emit (ECf 0 0 1 (6 / 3 - 1) text) ;;;
       resync 7 Trailing [0; 0; 0; 1; 2; 3] 0 6 3) /\
    cf_entries (events_of (disasm [0; 0; 0; 1; 2; 3] 6 0)) =
      [(0, 1, 6 / 3 - 1)].
Proof.
  apply (degenerate_header_single_cf 0 0 [1; 2; 3] 6 0).
  - reflexivity.
  - unfold INT_MAX. lia.
  - lia.
Defined.

(** ** An all-zero CF header word *)


Lemma resync_at_target (fuel : nat) (s : site) (dwords : list Z)
    (level a : Z) :
  resync fuel s dwords level a a = ret a.
Proof. destruct fuel; cbn [resync]; rewrite Z.eqb_refl; reflexivity. Qed.


(** ** Slots of a completed run *)

Lemma stride3_app (a : Z) (n m : nat) :
  stride3 a (n + m) = (stride3 a n ++ stride3 (a + 3 * Z.of_nat n) m)%list.
Proof.
  revert a. induction n as [|n IH]; intros a.
  - cbn. f_equal. lia.
  - cbn [stride3 Nat.add app]. rewrite IH. do 3 f_equal. lia.
Qed.

Lemma stride3_lower (a x : Z) (n : nat) : In x (stride3 a n) -> a <= x.
Proof.
  revert a. induction n as [|n IH]; intros a; cbn [stride3 In]; [tauto|].
  intros [<- | H]; [lia|]. apply IH in H. lia.
Qed.

Lemma stride3_NoDup (a : Z) (n : nat) : NoDup (stride3 a n).
Proof.
  revert a. induction n as [|n IH]; intros a; cbn [stride3]; constructor.
  - intros H. apply stride3_lower in H. lia.
  - apply IH.
Qed.

Lemma inst_slots_app (e1 e2 : list event) :
  inst_slots (e1 ++ e2) = (inst_slots e1 ++ inst_slots e2)%list.
Proof. apply flat_map_app. Qed.

Lemma cf_slots_app (e1 e2 : list event) :
  cf_slots (e1 ++ e2) = (cf_slots e1 ++ cf_slots e2)%list.
Proof. apply flat_map_app. Qed.

Lemma advanced_app (a a1 a2 : Z) (e1 e2 : list event) (n m : nat) :
  advanced a a1 e1 n -> advanced a1 a2 e2 m ->
  advanced a a2 (e1 ++ e2) (n + m).
Proof.
  intros [-> H1] [-> H2]. split; [lia|].
  rewrite inst_slots_app, H1, H2, stride3_app. reflexivity.
Qed.

Section Runs.

Variable dwords : list Z.
Variable level : Z.
Hypothesis size_fits_int : Z.of_nat (List.length dwords) <= INT_MAX.

Lemma next_cursor (a : Z) (dw : slot) :
  slot_at dwords a = Some dw -> wrap32 (a + 3) = a + 3.
Proof.
  intros H. apply slot_at_Some in H. unfold INT_MAX in size_fits_int.
  apply wrap32_small. lia.
Qed.

Lemma resync_Done (fuel : nat) (s : site) (target a a' : Z)
    (evs : list event) :
  resync fuel s dwords level target a = Done a' evs ->
  a' = target /\ cf_slots evs = [] /\ exists n, advanced a a' evs n.
Proof.
  revert a evs. induction fuel as [|fuel IH]; intros a evs; cbn [resync];
    destruct (a =? target) eqn:E; try discriminate;
    try (intros [= <- <-]; apply Z.eqb_eq in E;
         split; [exact E|]; split; [reflexivity|];
         exists 0%nat; split; [lia | reflexivity]).
  intros H.
  apply bind_Done_inv in H. destruct H as (u & e1 & e2 & Hm & H & ->).
  injection Hm as _ <-.
  apply bind_Done_inv in H. destruct H as (u' & e3 & e4 & Hc & H & ->).
  apply call_inst_Done in Hc. destruct Hc as (dw & text & Hs & _ & ->).
  rewrite (next_cursor a dw Hs) in H.
  apply IH in H. destruct H as (-> & Hcf & n & Hadv).
  split; [reflexivity|]. split.
  - rewrite !cf_slots_app, Hcf. reflexivity.
  - exists (1 + n)%nat.
    apply (advanced_app a (a + 3) target [EMark; EInst s a text] e4 1 n);
      [|exact Hadv].
    split; [lia | reflexivity].
Qed.

Lemma body_Done (n : nat) (a a' : Z) (evs : list event) :
  body n dwords level a = Done a' evs ->
  cf_slots evs = [] /\ advanced a a' evs n.
Proof.
  revert a evs. induction n as [|n IH]; intros a evs; cbn [body].
  - intros [= <- <-]. split; [reflexivity|]. split; [lia | reflexivity].
  - intros H.
    apply bind_Done_inv in H. destruct H as (u & e1 & e2 & Hc & H & ->).
    apply call_inst_Done in Hc. destruct Hc as (dw & text & Hs & _ & ->).
    rewrite (next_cursor a dw Hs) in H.
    apply IH in H. destruct H as (Hcf & Hadv).
    split.
    + rewrite cf_slots_app, Hcf. reflexivity.
    + apply (advanced_app a (a + 3) a' [EInst Body a text] e2 1 n);
        [|exact Hadv].
      split; [lia | reflexivity].
Qed.

Lemma cf_entry_Done (fuel : nat) (sizedwords i a a' : Z)
    (evs : list event) :
  cf_entry fuel dwords sizedwords level i a = Done a' evs ->
  cf_slots evs = [wrap32 (i * 3)] /\ exists n, advanced a a' evs n.
Proof.
  unfold cf_entry. intros H.
  apply bind_Done_inv in H. destruct H as (w & e0 & e1 & Hr & H & ->).
  assert (e0 = []) as ->
    by (unfold read in Hr; destruct (index dwords (wrap32 (i * 3)));
        [injection Hr as _ <-; reflexivity | discriminate]).
  apply bind_Done_inv in H. destruct H as ([off cnt] & e2 & e3 & Ho & H & ->).
  assert (cf_slots e2 = [] /\ inst_slots e2 = []) as [Hcf2 Hin2].
  { destruct (w =? 0).
    - cbn in Ho. injection Ho as _ _ <-. split; reflexivity.
    - injection Ho as _ _ <-. split; reflexivity. }
  apply bind_Done_inv in H. destruct H as (a1 & e4 & e5 & Hg & H & ->).
  apply resync_Done in Hg. destruct Hg as (_ & Hcf4 & n1 & Hadv1).
  apply bind_Done_inv in H. destruct H as (u & e6 & e7 & Hc & H & ->).
  apply call_cf_Done in Hc. destruct Hc as (dw & text & _ & _ & ->).
  apply body_Done in H. destruct H as (Hcf7 & Hadv2).
  split.
  - rewrite !cf_slots_app, Hcf2, Hcf4, Hcf7. reflexivity.
  - exists (n1 + (0 + Z.to_nat cnt))%nat. cbn [app].
    assert (advanced a a e2 0) as Hadv0 by (split; [lia | exact Hin2]).
    apply (advanced_app a a a' e2 _ 0 _ Hadv0).
    apply (advanced_app a a1 a' e4 _ n1 _ Hadv1).
    apply (advanced_app a1 a1 a' [ECf _ i off cnt text] e7 0 _);
      [split; [lia | reflexivity] | exact Hadv2].
Qed.

Lemma cf_loop_Done (n fuel : nat) (sizedwords i a a' : Z)
    (evs : list event) :
  0 <= i -> i + Z.of_nat n <= 4096 ->
  cf_loop n fuel dwords sizedwords level i a = Done a' evs ->
  cf_slots evs = stride3 (3 * i) n /\ exists m, advanced a a' evs m.
Proof.
  revert i a evs. induction n as [|n IH]; intros i a evs Hi Hn; cbn [cf_loop].
  - intros [= <- <-]. split; [reflexivity|].
    exists 0%nat. split; [lia | reflexivity].
  - intros H.
    apply bind_Done_inv in H. destruct H as (a1 & e1 & e2 & He & H & ->).
    apply cf_entry_Done in He. destruct He as (Hcf1 & m1 & Hadv1).
    rewrite (wrap32_small (i + 1)) in H by lia.
    apply IH in H; [|lia|lia]. destruct H as (Hcf2 & m2 & Hadv2).
    split.
    + rewrite cf_slots_app, Hcf1, Hcf2, wrap32_small by lia.
      cbn [stride3 app]. f_equal; [lia|]. f_equal. lia.
    + exists (m1 + m2)%nat. exact (advanced_app _ _ _ _ _ _ _ Hadv1 Hadv2).
Qed.

End Runs.

Lemma decoded_slots_split (evs : list event) :
  Permutation (decoded_slots evs) (cf_slots evs ++ inst_slots evs).
Proof.
  induction evs as [|e evs IH]; [constructor|].
  destruct e as [|a i off cnt text|s a text];
    cbn [decoded_slots cf_slots inst_slots flat_map cf_slot_of inst_slot_of
         app] in *.
  - exact IH.
  - constructor. exact IH.
  - apply Permutation_cons_app. exact IH.
Qed.

Lemma decoded_slots_count (evs : list event) :
  List.length (decoded_slots evs) =
  (List.length (cf_slots evs) + List.length (inst_slots_at Body evs) +
   List.length (inst_slots_at Resync evs) +
   List.length (inst_slots_at Trailing evs))%nat.
Proof.
  induction evs as [|e evs IH]; [reflexivity|].
  unfold decoded_slots, cf_slots, inst_slots_at in *.
  cbn [flat_map]. rewrite !length_app, IH.
  destruct e as [|a i off cnt text|[] a text]; cbn; lia.
Qed.

Lemma stride3_length (a : Z) (n : nat) : List.length (stride3 a n) = n.
Proof. revert a. induction n as [|n IH]; intros a; cbn; auto. Qed.

(** the header count is a 12-bit field *)
Lemma first_off_range (w : Z) : 0 <= Z.land w 0xfff < 4096.
Proof.
  change 0xfff with (Z.ones 12). rewrite Z.land_ones by lia.
  apply Z.mod_pos_bound. lia.
Qed.

(** a completed run has printed the CF entries of the slots
    [0 .. f - 1] and decoded the slots [f .. f + n - 1] as instructions,
    up to the end of the buffer *)
Lemma disasm_run_Done (dwords : list Z) (sizedwords level a : Z)
    (evs : list event) :
  sizedwords = Z.of_nat (List.length dwords) ->
  sizedwords <= INT_MAX ->
  disasm_run dwords sizedwords level = Done a evs ->
  exists f n : nat,
    sizedwords = 3 * Z.of_nat (f + n) /\
    cf_slots evs = stride3 0 f /\
    inst_slots evs = stride3 (3 * Z.of_nat f) n.
Proof.
  intros Hlen Hmax H.
  assert (Z.of_nat (List.length dwords) <= INT_MAX) as Hfit by lia.
  assert (wrap32 sizedwords = sizedwords) as Hw
    by (apply wrap32_small; unfold INT_MAX in Hmax; lia).
  unfold disasm_run in H.
  apply bind_Done_inv in H. destruct H as (w0 & e0 & e1 & Hr & H & ->).
  assert (e0 = []) as ->
    by (unfold read in Hr; destruct (index dwords 0);
        [injection Hr as _ <-; reflexivity | discriminate]).
  apply bind_Done_inv in H. destruct H as (a0 & e2 & e3 & Hh & H & ->).
  apply bind_Done_inv in H. destruct H as (a1 & e4 & e5 & Hl & H & ->).
  apply (resync_Done dwords level Hfit) in H.
  destruct H as (Ha & Hcf5 & k & Hadv5). rewrite Hw in Ha. subst a.
  pose proof (first_off_range w0) as Hf.
  apply (cf_loop_Done dwords level Hfit) in Hl; [|lia|lia].
  destruct Hl as (Hcf4 & m & Hadv4).
  pose proof (advanced_app _ _ _ _ _ _ _ Hadv4 Hadv5) as [Hend Hin].
  destruct (w0 =? 0) eqn:E0.
  - apply Z.eqb_eq in E0. subst w0.
    apply bind_Done_inv in Hh. destruct Hh as (u & e6 & e7 & Hc & Hh & ->).
    injection Hh as <- <-.
    apply call_cf_Done in Hc. destruct Hc as (dw & text & _ & _ & ->).
    assert (wrap32 3 = 3) as W3 by reflexivity. rewrite W3 in *.
    exists 1%nat, (m + k)%nat. cbn [app].
    split; [lia|]. split.
    + change (cf_slots (ECf 0 0 1 ?c text :: e4 ++ e5))
        with (0 :: cf_slots (e4 ++ e5)).
      rewrite cf_slots_app, Hcf4, Hcf5. reflexivity.
    + exact Hin.
  - injection Hh as <- <-.
    rewrite wrap32_small in * by lia.
    exists (Z.to_nat (Z.land w0 4095)), (m + k)%nat. cbn [app].
    split; [lia|]. split.
    + rewrite !cf_slots_app, Hcf4, Hcf5, app_nil_r. reflexivity.
    + rewrite Hin. f_equal. lia.
Qed.

(** X16: when [disasm], given a buffer and its length, runs to its end
    without reading outside the buffer or a table, the length is a
    multiple of 3 and every slot has been decoded exactly once: the
    slots decoded are the slots [0 .. length / 3 - 1] in some order,
    none twice, and the CF entries, the instructions of the entry
    bodies, of the resync guard and of the trailing guard add up to
    [length / 3]. *)
Theorem completed_run_decodes_each_slot_once (dwords : list Z)
    (sizedwords level r : Z) (evs : list event) :
  sizedwords = Z.of_nat (List.length dwords) ->
  sizedwords <= INT_MAX ->
  disasm dwords sizedwords level = Done r evs ->
  sizedwords mod 3 = 0 /\
  Permutation (decoded_slots evs)
              (slot_offsets (Z.to_nat (sizedwords / 3))) /\
  NoDup (decoded_slots evs) /\
  Z.of_nat (List.length (cf_slots evs) +
            List.length (inst_slots_at Body evs) +
            List.length (inst_slots_at Resync evs) +
            List.length (inst_slots_at Trailing evs)) = sizedwords / 3.
Proof.
  intros Hlen Hmax H. unfold disasm in H.
  apply bind_Done_inv in H. destruct H as (a & e1 & e2 & Hrun & Hret & ->).
  injection Hret as _ <-. rewrite app_nil_r.
  destruct (disasm_run_Done dwords sizedwords level a e1 Hlen Hmax Hrun)
    as (f & n & Hsz & Hcf & Hin).
  assert (sizedwords / 3 = Z.of_nat (f + n)) as Hdiv
    by (rewrite Hsz, Z.mul_comm; apply Z.div_mul; lia).
  assert (Permutation (decoded_slots e1) (slot_offsets (f + n))) as P.
  { rewrite decoded_slots_split, Hcf, Hin. unfold slot_offsets.
    rewrite stride3_app. reflexivity. }
  split; [rewrite Hsz, Z.mul_comm; apply Z.mod_mul; lia|].
  rewrite Hdiv, Nat2Z.id. split; [exact P|]. split.
  - apply (Permutation_NoDup (Permutation_sym P)). apply stride3_NoDup.
  - rewrite <- decoded_slots_count.
    rewrite (Permutation_length P). unfold slot_offsets.
    rewrite stride3_length. reflexivity.
Qed.

Lemma completed_run_decodes_each_slot_once_witness :
  24 mod 3 = 0 /\
  Permutation (decoded_slots (events_of (disasm sample 24 0)))
              (slot_offsets (Z.to_nat (24 / 3))) /\
  NoDup (decoded_slots (events_of (disasm sample 24 0))) /\
  Z.of_nat
    (List.length (cf_slots (events_of (disasm sample 24 0))) +
     List.length (inst_slots_at Body (events_of (disasm sample 24 0))) +
     List.length (inst_slots_at Resync (events_of (disasm sample 24 0))) +
     List.length (inst_slots_at Trailing (events_of (disasm sample 24 0))))
  = 24 / 3.
Proof.
  apply (completed_run_decodes_each_slot_once sample 24 0 0
           (events_of (disasm sample 24 0))).
  - reflexivity.
  - unfold INT_MAX. lia.
  - vm_compute. reflexivity.
Defined.

(** C2: on a buffer of 4 slots, a length that is a multiple of 3, whose
    second CF entry declares the address 5, [disasm] does not consume
    every slot once: the resync guard of that entry decodes the slot at
    word 9 and then reads at word 12, outside the buffer; the slot at
    word 3 is never printed and the run does not come to its end. *)
Lemma entry_past_end_not_decoded_once :
  Z.of_nat (List.length entry_past_end) = 12 /\
  12 mod 3 = 0 /\
  is_fault (disasm entry_past_end 12 0) = true /\
  decoded_slots (events_of (disasm entry_past_end 12 0)) = [0; 6; 9] /\
  ~ (exists r evs,
       disasm entry_past_end 12 0 = Done r evs /\
       Permutation (decoded_slots evs) (slot_offsets (Z.to_nat (12 / 3)))).
Proof.
  assert (is_fault (disasm entry_past_end 12 0) = true) as F
    by (vm_compute; reflexivity).
  repeat split; try exact F.
  intros (r & evs & H & _). rewrite H in F. discriminate.
Qed.

(** ** The guards *)

Section Guards.

Variable dwords : list Z.
Variable level : Z.
Hypothesis size_fits_int : Z.of_nat (List.length dwords) <= INT_MAX.

(** a guard whose target lies [n] decodable slots ahead of the cursor
    stops there, having marked and decoded each of them once, in order *)
Lemma resync_forward (n fuel : nat) (s : site) (target a : Z) :
  target = a + 3 * Z.of_nat n ->
  (n <= fuel)%nat ->
  (forall k, (k < n)%nat ->
     is_done (call_inst s dwords (a + 3 * Z.of_nat k) level) = true) ->
  exists evs,
    resync fuel s dwords level target a = Done target evs /\
    map shape_of evs = skipped s a n.
Proof.
  revert fuel a. induction n as [|n IH]; intros fuel a Ht Hfuel Hdec.
  - replace target with a by lia. rewrite resync_at_target.
    exists []. split; reflexivity.
  - destruct fuel as [|fuel]; [lia|]. cbn [resync].
    destruct (a =? target) eqn:E; [apply Z.eqb_eq in E; lia|].
    pose proof (Hdec 0%nat ltac:(lia)) as H0.
    replace (a + 3 * Z.of_nat 0) with a in H0 by lia.
    destruct (call_inst s dwords a level) as [u e| |] eqn:C;
      try discriminate.
    destruct (call_inst_Done _ _ _ _ _ _ C) as (dw & text & Hs & _ & ->).
    rewrite (next_cursor dwords size_fits_int a dw Hs).
    destruct (IH fuel (a + 3)) as (evs & Hr & Hsh); [lia|lia| |].
    { intros k Hk. specialize (Hdec (S k) ltac:(lia)).
      replace (a + 3 + 3 * Z.of_nat k) with (a + 3 * Z.of_nat (S k)) by lia.
      exact Hdec. }
    exists (EMark :: EInst s a text :: evs). split.
    + unfold emit. cbn [bind]. rewrite Hr. destruct u. reflexivity.
    + cbn [map shape_of]. rewrite Hsh. reflexivity.
Qed.

(** a guard whose target lies behind the cursor never stops at it *)
Lemma resync_backward (fuel : nat) (s : site) (target a : Z) :
  target < a -> is_done (resync fuel s dwords level target a) = false.
Proof.
  intros H.
  destruct (resync fuel s dwords level target a) as [a' evs| |] eqn:E;
    try reflexivity.
  apply (resync_Done dwords level size_fits_int) in E.
  destruct E as (-> & _ & n & Hadv & _). lia.
Qed.

(** the fuel of a guard is enough when it exceeds the words left *)
Lemma resync_no_timeout (fuel : nat) (s : site) (target a : Z) :
  (Z.to_nat (Z.of_nat (List.length dwords) - Z.max 0 a) < fuel)%nat ->
  is_timeout (resync fuel s dwords level target a) = false.
Proof.
  revert a. induction fuel as [|fuel IH]; intros a Hm; [lia|].
  cbn [resync]. destruct (a =? target); [reflexivity|].
  apply is_timeout_bind; [reflexivity|]. intros _ _ _.
  destruct (call_inst_events s dwords a level) as [C | [text C]];
    rewrite C; [reflexivity|].
  apply is_timeout_bind; [reflexivity|]. intros _ _ _.
  destruct (call_inst_Done _ _ _ _ _ _ C) as (dw & _ & Hs & _).
  rewrite (next_cursor dwords size_fits_int a dw Hs).
  apply slot_at_Some in Hs. apply IH. lia.
Qed.

Lemma body_no_timeout (n : nat) (a : Z) :
  is_timeout (body n dwords level a) = false.
Proof.
  revert a. induction n as [|n IH]; intros a; cbn [body]; [reflexivity|].
  destruct (call_inst_events Body dwords a level) as [C | [text C]];
    rewrite C; [reflexivity|].
  apply is_timeout_bind; [reflexivity|]. intros _ _ _. apply IH.
Qed.

Lemma cf_entry_no_timeout (sizedwords i a : Z) :
  is_timeout (cf_entry (S (List.length dwords)) dwords sizedwords level i a)
  = false.
Proof.
  unfold cf_entry.
  apply is_timeout_bind;
    [unfold read; destruct (index dwords (wrap32 (i * 3))); reflexivity|].
  intros w _ _.
  apply is_timeout_bind; [destruct (w =? 0); reflexivity|].
  intros [off cnt] _ _.
  apply is_timeout_bind; [apply resync_no_timeout; lia|].
  intros a1 _ _.
  apply is_timeout_bind;
    [unfold call_cf;
     destruct (dw <-? slot_at dwords (wrap32 (i * 3));;
               disasm_cf dw level i off cnt); reflexivity|].
  intros _ _ _. apply body_no_timeout.
Qed.

Lemma cf_loop_no_timeout (n : nat) (sizedwords i a : Z) :
  is_timeout (cf_loop n (S (List.length dwords)) dwords sizedwords level i a)
  = false.
Proof.
  revert i a. induction n as [|n IH]; intros i a; cbn [cf_loop];
    [reflexivity|].
  apply is_timeout_bind; [apply cf_entry_no_timeout|].
  intros a1 _ _. apply IH.
Qed.

(** the [while] loops of [disasm] never run out of the fuel they get:
    a run ends at [return 0] or leaves the buffer or a table *)
Lemma disasm_no_timeout (sizedwords : Z) :
  is_timeout (disasm dwords sizedwords level) = false.
Proof.
  unfold disasm, disasm_run.
  apply is_timeout_bind; [|reflexivity].
  apply is_timeout_bind; [unfold read; destruct (index dwords 0); reflexivity|].
  intros w0 _ _.
  apply is_timeout_bind.
  { destruct (w0 =? 0); [|reflexivity].
    apply is_timeout_bind; [|reflexivity].
    unfold call_cf.
    destruct (dw <-? slot_at dwords 0;;
              disasm_cf dw level 0 1 (wrap32 (Z.quot sizedwords 3 - 1)));
      reflexivity. }
  intros a0 _ _.
  apply is_timeout_bind; [apply cf_loop_no_timeout|].
  intros a1 _ _. apply resync_no_timeout. lia.
Qed.

End Guards.

(** C1: on a buffer of 3 slots whose second CF entry declares the
    address 2 while the cursor is already at slot 3, the resync guard
    does not stop: its cursor, at the end of the buffer, differs from
    the target behind it, and the first iteration reads the slot at
    word 9 of a buffer of 9 words. *)
Theorem resync_guard_leaves_buffer :
  Z.of_nat (List.length backward_entry) = 9 /\
  map shape_of (events_of (disasm backward_entry 9 0)) =
    [SCf 0 0 2 1; SInst Body 6; SMark] /\
  is_fault (disasm backward_entry 9 0) = true /\
  slot_at backward_entry 9 = None /\
  (forall fuel,
     is_done (resync fuel Resync backward_entry 0 (2 * 3) 9) = false).
Proof.
  repeat split.
  intros [|fuel]; reflexivity.
Qed.

(** ** The example of the source comment *)

Example sample_run :
  is_done (disasm sample 24 0) = true /\
  map shape_of (events_of (disasm sample 24 0)) =
    [ SCf 0 0 2 5;
      SInst Body 6; SInst Body 9; SInst Body 12; SInst Body 15;
      SInst Body 18;
      SCf 3 1 7 1;
      SInst Body 21 ] /\
  disasm_inst (0x140f8000, 0x00430000, 0xa1000000) 0 =
    Some (TAB ++ "140f8000 00430000 a1000000" ++ TAB ++
          "14008000 00000000 20000000" ++ TAB ++
          TAB ++ "ALU:" ++ TAB ++ "MULv" ++ TAB ++ "R0 = R0.wyzx, C0" ++ NL).
Proof. repeat split. Qed.

(** * Further properties of the decoders *)

(** ** Fields of an ALU slot *)

Lemma bit_field_range (w lo len : Z) :
  0 <= len -> 0 <= bit_field w lo len < 2 ^ len.
Proof.
  intros H. unfold bit_field. apply Z.mod_pos_bound.
  apply Z.pow_pos_nonneg; lia.
Qed.

Lemma land_pow2_testbit (d k : Z) :
  0 <= k -> (Z.land d (2 ^ k) =? 0) = negb (Z.testbit d k).
Proof.
  intros Hk. destruct (Z.testbit d k) eqn:B; cbn [negb].
  - apply Z.eqb_neq. intros E.
    assert (Z.testbit (Z.land d (2 ^ k)) k = false) as T
      by (rewrite E; apply Z.bits_0).
    rewrite Z.land_spec, B, Z.pow2_bits_true in T by lia. discriminate.
  - apply Z.eqb_eq. apply Z.bits_inj'. intros n Hn.
    rewrite Z.bits_0, Z.land_spec, Z.pow2_bits_eqb by lia.
    destruct (k =? n) eqn:E; [|apply andb_false_r].
    apply Z.eqb_eq in E. subst n. rewrite B. reflexivity.
Qed.

(** X1: the fields that [disasm_alu] extracts are bounded by their
    widths for every slot: registers below 32, the mask below 16, the
    swizzles below 256, the opcode below 32.  A source is of the
    constant class exactly when its bit of the third word (31 for the
    first source, 30 for the second) is clear, and is negated exactly
    when its bit of the second word (26, 25) is set. *)
Theorem alu_fields_bounded (d0 d1 d2 : Z) :
  let f := alu_decode (d0, d1, d2) in
  0 <= dst_reg f < 32 /\ 0 <= dst_mask f < 16 /\
  0 <= src1_reg f < 32 /\ 0 <= src2_reg f < 32 /\
  0 <= src1_swiz f < 256 /\ 0 <= src2_swiz f < 256 /\
  0 <= op f < 32 /\
  src1_type f = (if Z.testbit d2 31 then 0 else 1) /\
  src2_type f = (if Z.testbit d2 30 then 0 else 1) /\
  (src1_neg f =? 0) = negb (Z.testbit d1 26) /\
  (src2_neg f =? 0) = negb (Z.testbit d1 25).
Proof.
  destruct (alu_decode_layout d0 d1 d2)
    as (E1 & E2 & E3 & E4 & E5 & E6 & E7).
  cbv zeta. rewrite E1, E2, E3, E4, E5, E6, E7.
  pose proof (bit_field_range d0 0 5). pose proof (bit_field_range d0 16 4).
  pose proof (bit_field_range d2 16 5). pose proof (bit_field_range d2 8 5).
  pose proof (bit_field_range d1 16 8). pose proof (bit_field_range d1 8 8).
  pose proof (bit_field_range d2 24 5).
  change (2 ^ 5) with 32 in *. change (2 ^ 4) with 16 in *.
  change (2 ^ 8) with 256 in *.
  repeat (split; [lia|]).
  cbn [alu_decode src1_type src2_type src1_neg src2_neg]. unfold lognot.
  change 0x80000000 with (2 ^ 31). change 0x40000000 with (2 ^ 30).
  change 0x04000000 with (2 ^ 26). change 0x02000000 with (2 ^ 25).
  rewrite !land_pow2_testbit by lia.
  destruct (Z.testbit d2 31), (Z.testbit d2 30); repeat split.
Qed.

(** ** When a line is printed *)

Lemma print_dstreg_defined (num mask : Z) :
  exists s, print_dstreg num mask = Some s.
Proof.
  unfold print_dstreg. destruct (mask =? 15); [eauto|].
  cbn [dstreg_chans].
  destruct (Z.land mask 1 =? 0),
           (Z.land (Z.shiftr mask 1) 1 =? 0),
           (Z.land (Z.shiftr (Z.shiftr mask 1) 1) 1 =? 0),
           (Z.land (Z.shiftr (Z.shiftr (Z.shiftr mask 1) 1) 1) 1 =? 0);
    eexists; reflexivity.
Qed.

Lemma print_srcreg_defined (num type swiz negate : Z) :
  exists s, print_srcreg num type swiz negate = Some s.
Proof.
  unfold print_srcreg. destruct (swiz =? 0); [eauto|].
  cbn [srcreg_chans]. rewrite !chan_lookup. cbn [obind]. eauto.
Qed.

Lemma alu_mnemonic_None (n : Z) :
  0 <= n < 32 -> (alu_mnemonic n = None <-> n = 31).
Proof.
  intros H. split.
  - intros E. destruct (Z.eq_dec n 31) as [|N]; [assumption|].
    rewrite alu_mnemonic_below_31 in E by lia. discriminate.
  - intros ->. reflexivity.
Qed.

Lemma disasm_alu_None (d0 d1 d2 level : Z) :
  disasm_alu (d0, d1, d2) level = None <-> bit_field d2 24 5 = 31.
Proof.
  destruct (alu_decode_layout d0 d1 d2) as (_ & _ & _ & _ & _ & _ & E).
  cbv zeta in E. rewrite <- E.
  pose proof (bit_field_range d2 24 5 ltac:(lia)) as R.
  rewrite <- E in R. change (2 ^ 5) with 32 in R.
  unfold disasm_alu.
  set (f := alu_decode (d0, d1, d2)) in *.
  destruct (print_dstreg_defined (dst_reg f) (dst_mask f)) as [s0 ->].
  destruct (print_srcreg_defined (src1_reg f) (src1_type f) (src1_swiz f)
              (src1_neg f)) as [s1 ->].
  destruct (print_srcreg_defined (src2_reg f) (src2_type f) (src2_swiz f)
              (src2_neg f)) as [s2 ->].
  rewrite <- (alu_mnemonic_None (op f) R).
  destruct (alu_mnemonic (op f)); cbn [obind]; split; congruence.
Qed.

Lemma field_31_top_nibble (d2 : Z) :
  bit_field d2 24 5 = 31 -> (Z.land d2 0xf0000000 =? 0) = false.
Proof.
  intros E. rewrite top_nibble_test.
  assert (Z.testbit d2 28 = true) as B.
  { rewrite <- land_shiftr_field in E by lia.
    assert (Z.testbit (Z.land (Z.shiftr d2 24) (Z.ones 5)) 4 = true) as T
      by (rewrite E; reflexivity).
    rewrite Z.land_spec, Z.shiftr_spec in T by lia.
    apply andb_true_iff in T. exact (proj1 T). }
  cbn [existsb]. rewrite B. reflexivity.
Qed.

Lemma levels_None (level : Z) :
  index levels level = None <-> level < 0 \/ 14 < level.
Proof.
  split.
  - intros E. destruct (Z_lt_dec level 0); [lia|].
    destruct (Z_lt_dec 14 level); [lia|].
    rewrite levels_spec in E by lia. discriminate.
  - intros H. apply index_outside. cbn [List.length levels]. lia.
Qed.

Lemma disasm_inst_None (d0 d1 d2 level : Z) :
  disasm_inst (d0, d1, d2) level = None <->
  level < 0 \/ 14 < level \/ bit_field d2 24 5 = 31.
Proof.
  unfold disasm_inst.
  destruct (index levels level) as [p|] eqn:L; cbn [obind].
  - assert (~ (level < 0 \/ 14 < level)) as NL
      by (intros H; apply levels_None in H; congruence).
    destruct (Z.land d2 4026531840 =? 0) eqn:T.
    + cbn. split; [discriminate|].
      intros [H | [H | H]]; try lia.
      apply field_31_top_nibble in H. congruence.
    + pose proof (disasm_alu_None d0 d1 d2 level) as A.
      destruct (disasm_alu (d0, d1, d2) level); cbn [obind].
      * split; [discriminate|]. intros [H | [H | H]]; try lia.
        apply A in H. discriminate.
      * split; [|reflexivity]. intros _. right. right. apply A. reflexivity.
  - split; [|reflexivity]. intros _. apply levels_None in L. lia.
Qed.

(** X2: [disasm_inst] fails to print a line for exactly two reasons: the
    level has no entry in the 15-entry indentation table, or the bits 24
    to 28 of the third word are all set (the opcode 31, one past the
    mnemonic table).  In particular every slot that is classified as a
    FETCH is printed at every level from 0 to 14. *)
Theorem disasm_inst_fails_iff (d0 d1 d2 level : Z) :
  (disasm_inst (d0, d1, d2) level = None <->
   level < 0 \/ 14 < level \/ bit_field d2 24 5 = 31) /\
  (disasm_alu (d0, d1, d2) level = None <-> bit_field d2 24 5 = 31) /\
  (0 <= level <= 14 -> Z.land d2 0xf0000000 = 0 ->
   exists text, disasm_inst (d0, d1, d2) level = Some text).
Proof.
  split; [apply disasm_inst_None|]. split; [apply disasm_alu_None|].
  intros HL HT.
  destruct (disasm_inst (d0, d1, d2) level) as [text|] eqn:E; [eauto|].
  apply disasm_inst_None in E. destruct E as [E | [E | E]]; try lia.
  apply field_31_top_nibble in E. rewrite HT in E. discriminate.
Qed.

Lemma disasm_inst_fails_iff_witness :
  exists text,
    disasm_inst (0x10002021, 0x1ffff688, 0x00000002) 0 = Some text.
Proof.
  apply (proj2 (proj2 (disasm_inst_fails_iff
                         0x10002021 0x1ffff688 0x00000002 0))).
  - lia.
  - reflexivity.
Defined.

(** ** The FETCH decoder *)

Lemma land_all_ones (d : Z) : Z.land d (Z.lnot 0) = d.
Proof. change (Z.lnot 0) with (-1). apply Z.land_m1_r. Qed.

(** X3: [disasm_fetch] prints a line for every slot and level.  After
    the echo of the unidentified bits the line is
    [FETCH: SAMPLE R<dst> = R<src> CONST(<n>)] with the destination in
    bits 12 to 16, the source in bits 5 to 9 and the constant in bits 20
    to 23 of the first word, so that both registers are below 32 and the
    constant below 16; the second and third word are echoed whole and
    decide nothing else. *)
Theorem disasm_fetch_line (d0 d1 d2 level : Z) :
  let dst := bit_field d0 12 5 in
  let src := bit_field d0 5 5 in
  let cst := bit_field d0 20 4 in
  disasm_fetch (d0, d1, d2) level =
    Some (fmt_words (Z.land d0 (Z.lnot 0x00f1f3e0)) d1 d2 ++
          TAB ++ "FETCH:" ++ TAB ++ "SAMPLE" ++ TAB ++
          "R" ++ fmt_u dst ++ " = R" ++ fmt_u src ++
          " CONST(" ++ fmt_u cst ++ ")" ++ NL) /\
  0 <= dst < 32 /\ 0 <= src < 32 /\ 0 <= cst < 16.
Proof.
  cbv zeta. split.
  - unfold disasm_fetch, print_unknown, fetch_type, REG_MASK.
    rewrite !land_all_ones.
    change 0x1f with (Z.ones 5). change 0xf with (Z.ones 4).
    rewrite !land_shiftr_field by lia. reflexivity.
  - pose proof (bit_field_range d0 12 5). pose proof (bit_field_range d0 5 5).
    pose proof (bit_field_range d0 20 4).
    change (2 ^ 5) with 32 in *. change (2 ^ 4) with 16 in *. lia.
Qed.

(** ** Reading the operands back *)

Lemma below_in_seq (n : Z) (k : nat) :
  0 <= n < Z.of_nat k -> In n (map Z.of_nat (seq 0 k)).
Proof.
  intros H. rewrite <- (Z2Nat.id n) by lia. apply in_map, in_seq. lia.
Qed.

Lemma swizzle_read_back (swiz : Z) :
  0 <= swiz < 256 ->
  exists s, srcreg_chans 4 0 swiz = Some s /\ swiz_of_chans 0 s = swiz.
Proof.
  intros H.
  assert (forallb (fun z => match srcreg_chans 4 0 z with
                            | Some s => swiz_of_chans 0 s =? z
                            | None => false
                            end)
                  (map Z.of_nat (seq 0 256)) = true) as F
    by (vm_compute; reflexivity).
  rewrite forallb_forall in F.
  specialize (F swiz (below_in_seq swiz 256 ltac:(lia))).
  destruct (srcreg_chans 4 0 swiz) as [s|]; [|discriminate].
  exists s. split; [reflexivity|]. apply Z.eqb_eq. exact F.
Qed.

(** X4: for an 8-bit swizzle other than 0, as [disasm_alu] passes them,
    the four channel characters that [print_srcreg] prints after the dot
    determine the swizzle: undoing the rotation of each position gives
    the field back.  Hence two different swizzles never print the same
    suffix, and the identity suffix [xyzw] is never printed. *)
Theorem print_srcreg_swizzle_read_back (num type swiz negate : Z) :
  0 < swiz < 256 ->
  exists s,
    print_srcreg num type swiz negate =
      Some ((if negate =? 0 then "" else "-") ++
            String (if type =? 0 then "R"%char else "C"%char) (fmt_u num) ++
            "." ++ s) /\
    swiz_of_chans 0 s = swiz /\
    s <> "xyzw".
Proof.
  intros H. destruct (swizzle_read_back swiz ltac:(lia)) as (s & E & R).
  exists s. split; [|split; [exact R|]].
  - unfold print_srcreg.
    destruct (swiz =? 0) eqn:Z0; [apply Z.eqb_eq in Z0; lia|].
    rewrite E. reflexivity.
  - intros ->. cbn in R. lia.
Qed.

Lemma print_srcreg_swizzle_read_back_witness :
  exists s,
    print_srcreg 2 0 0x22 0 =
      Some ((if 0 =? 0 then "" else "-") ++
            String (if 0 =? 0 then "R"%char else "C"%char) (fmt_u 2) ++
            "." ++ s) /\
    swiz_of_chans 0 s = 0x22 /\
    s <> "xyzw".
Proof. apply (print_srcreg_swizzle_read_back 2 0 0x22 0). lia. Defined.

Lemma mask_read_back (mask : Z) :
  0 <= mask < 16 ->
  exists s, dstreg_chans 4 0 mask = Some s /\ mask_of_chans s = mask.
Proof.
  intros H.
  assert (forallb (fun z => match dstreg_chans 4 0 z with
                            | Some s => mask_of_chans s =? z
                            | None => false
                            end)
                  (map Z.of_nat (seq 0 16)) = true) as F
    by (vm_compute; reflexivity).
  rewrite forallb_forall in F.
  specialize (F mask (below_in_seq mask 16 ltac:(lia))).
  destruct (dstreg_chans 4 0 mask) as [s|]; [|discriminate].
  exists s. split; [reflexivity|]. apply Z.eqb_eq. exact F.
Qed.

(** X5: for a 4-bit mask other than [0b1111], as [disasm_alu] passes
    them, the four characters that [print_dstreg] prints after the dot
    determine the mask: a channel name stands for a set bit, an
    underscore for a clear one.  The mask 0, no channel written, is
    printed as four underscores. *)
Theorem print_dstreg_mask_read_back (num mask : Z) :
  0 <= mask < 15 ->
  exists s,
    print_dstreg num mask = Some ("R" ++ fmt_u num ++ "." ++ s) /\
    mask_of_chans s = mask /\
    print_dstreg num 0 = Some ("R" ++ fmt_u num ++ ".____").
Proof.
  intros H. destruct (mask_read_back mask ltac:(lia)) as (s & E & R).
  exists s. split; [|split; [exact R | reflexivity]].
  unfold print_dstreg.
  destruct (mask =? 15) eqn:M; [apply Z.eqb_eq in M; lia|].
  rewrite E. reflexivity.
Qed.

Lemma print_dstreg_mask_read_back_witness :
  exists s,
    print_dstreg 1 0x5 = Some ("R" ++ fmt_u 1 ++ "." ++ s) /\
    mask_of_chans s = 0x5 /\
    print_dstreg 1 0 = Some ("R" ++ fmt_u 1 ++ ".____").
Proof. apply (print_dstreg_mask_read_back 1 0x5). lia. Defined.

(** ** Runs, however they end *)

Lemma bind_Done {A B : Type} (a : A) (out : list event)
    (f : A -> result B) :
  bind (Done a out) f = prepend out (f a).
Proof. reflexivity. Qed.

Lemma events_prepend {A : Type} (out : list event) (r : result A) :
  events_of (prepend out r) = (out ++ events_of r)%list.
Proof. destruct r; reflexivity. Qed.

Lemma is_done_prepend {A : Type} (out : list event) (r : result A) :
  is_done (prepend out r) = is_done r.
Proof. destruct r; reflexivity. Qed.

Lemma cf_heads_app (e1 e2 : list event) :
  cf_heads (e1 ++ e2) = (cf_heads e1 ++ cf_heads e2)%list.
Proof. apply flat_map_app. Qed.

Lemma call_cf_events (dwords : list Z) (idx level i off cnt : Z) :
  call_cf dwords idx level i off cnt = Fault [] \/
  exists dw text,
    slot_at dwords idx = Some dw /\
    call_cf dwords idx level i off cnt = Done tt [ECf idx i off cnt text].
Proof.
  unfold call_cf. destruct (slot_at dwords idx) as [dw|]; cbn [obind];
    [|left; reflexivity].
  destruct (disasm_cf dw level i off cnt) as [text|];
    [right; exists dw, text; split; reflexivity | left; reflexivity].
Qed.

Lemma read_events (dwords : list Z) (i : Z) :
  read dwords i = Fault [] \/ exists w, read dwords i = ret w.
Proof.
  unfold read. destruct (index dwords i) as [w|]; [right; eauto | left; auto].
Qed.

Section AnyRun.

Variable dwords : list Z.
Variable level : Z.
Hypothesis size_fits_int : Z.of_nat (List.length dwords) <= INT_MAX.

Local Abbreviation len := (Z.of_nat (List.length dwords)).

Lemma walked_ret (a : Z) : walked len a (ret a) 0.
Proof.
  split; [reflexivity|]. split; [|intros H; contradiction].
  intros a' out [= <- _]. lia.
Qed.

Lemma walked_stopped (a : Z) (r : result Z) :
  is_done r = false -> inst_slots (events_of r) = [] -> walked len a r 0.
Proof.
  intros Hd He. split; [exact He|]. split; [|intros H; contradiction].
  intros a' out ->. discriminate.
Qed.

Lemma walked_prepend (a : Z) (out : list event) (r : result Z) (n : nat) :
  inst_slots out = [] -> walked len a r n -> walked len a (prepend out r) n.
Proof.
  intros Ho (He & Hd & Hb). split; [|split; [|exact Hb]].
  - rewrite events_prepend, inst_slots_app, Ho, He. reflexivity.
  - intros a' o E. destruct r as [x o'| |]; try discriminate.
    injection E as <- _. exact (Hd x o' eq_refl).
Qed.

Lemma walked_bind (a : Z) (m : result Z) (f : Z -> result Z) (n1 : nat) :
  walked len a m n1 ->
  (forall a1 out, m = Done a1 out -> exists n2, walked len a1 (f a1) n2) ->
  exists n, walked len a (bind m f) n.
Proof.
  intros (He & Hd & Hb) Hf.
  destruct m as [a1 out| out | out].
  - destruct (Hf a1 out eq_refl) as (n2 & He2 & Hd2 & Hb2).
    pose proof (Hd a1 out eq_refl) as Ha1. cbn [events_of] in He.
    exists (n1 + n2)%nat. rewrite bind_Done. split; [|split].
    + rewrite events_prepend, inst_slots_app, He, He2, stride3_app.
      rewrite <- Ha1. reflexivity.
    + intros a' o E. destruct (f a1) as [x o'| |]; try discriminate.
      injection E as <- _. rewrite (Hd2 x o' eq_refl). lia.
    + intros Hn. destruct n2 as [|n2]; [|destruct n1 as [|n1]]; lia.
  - exists n1. split; [exact He|]. split; [discriminate | exact Hb].
  - exists n1. split; [exact He|]. split; [discriminate | exact Hb].
Qed.

Lemma walked_inst (s : site) (a : Z) (k : result Z) :
  (forall dw, slot_at dwords a = Some dw ->
     exists n, walked len (a + 3) k n) ->
  exists n, walked len a (bind (call_inst s dwords a level) (fun _ => k)) n.
Proof.
  intros Hk.
  destruct (call_inst s dwords a level) as [u e| e | e] eqn:C.
  - destruct (call_inst_Done _ _ _ _ _ _ C) as (dw & text & Hs & _ & ->).
    destruct (Hk dw Hs) as (n & He & Hd & Hb).
    apply slot_at_Some in Hs.
    exists (S n). rewrite bind_Done. split; [|split].
    + rewrite events_prepend, inst_slots_app, He. reflexivity.
    + intros a' o E. destruct k as [x o'| |]; try discriminate.
      injection E as <- _. rewrite (Hd x o' eq_refl). lia.
    + intros _. destruct n as [|n]; lia.
  - destruct (call_inst_events s dwords a level) as [F | [text F]];
      rewrite F in C; [|discriminate]. injection C as <-.
    exists 0%nat. apply walked_stopped; reflexivity.
  - destruct (call_inst_events s dwords a level) as [F | [text F]];
      rewrite F in C; discriminate.
Qed.

Lemma resync_walked (fuel : nat) (s : site) (target a : Z) :
  exists n, walked len a (resync fuel s dwords level target a) n.
Proof.
  revert a. induction fuel as [|fuel IH]; intros a; cbn [resync];
    destruct (a =? target);
    try (exists 0%nat; apply walked_ret);
    try (exists 0%nat; apply walked_stopped; reflexivity).
  unfold emit. rewrite bind_Done.
  destruct (walked_inst s a
              (resync fuel s dwords level target (wrap32 (a + 3))))
    as (n & W).
  { intros dw Hs. rewrite (next_cursor dwords size_fits_int a dw Hs).
    apply IH. }
  exists n. apply walked_prepend; [reflexivity | exact W].
Qed.

Lemma body_walked (n : nat) (a : Z) :
  exists m, walked len a (body n dwords level a) m.
Proof.
  revert a. induction n as [|n IH]; intros a; cbn [body].
  - exists 0%nat. apply walked_ret.
  - apply walked_inst. intros dw Hs.
    rewrite (next_cursor dwords size_fits_int a dw Hs). apply IH.
Qed.

Lemma resync_no_heads (fuel : nat) (s : site) (target a : Z) :
  cf_heads (events_of (resync fuel s dwords level target a)) = [].
Proof.
  revert a. induction fuel as [|fuel IH]; intros a; cbn [resync];
    destruct (a =? target); try reflexivity.
  unfold emit. rewrite bind_Done, events_prepend, cf_heads_app.
  destruct (call_inst_events s dwords a level) as [-> | [text ->]];
    [reflexivity|].
  rewrite bind_Done, events_prepend, cf_heads_app. apply IH.
Qed.

Lemma body_no_heads (n : nat) (a : Z) :
  cf_heads (events_of (body n dwords level a)) = [].
Proof.
  revert a. induction n as [|n IH]; intros a; cbn [body]; [reflexivity|].
  destruct (call_inst_events Body dwords a level) as [-> | [text ->]];
    [reflexivity|].
  rewrite bind_Done, events_prepend, cf_heads_app. apply IH.
Qed.

(** the rest of an iteration of the CF loop, once the address and the
    count are known *)
Lemma cf_entry_rest (fuel : nat) (i a off cnt : Z) :
  let r :=
    a1 <- resync fuel Resync dwords level (wrap32 (off * 3)) a ;;
    call_cf dwords (i * 3) level i off cnt ;;;
    body (Z.to_nat cnt) dwords level a1 in
  exists k n,
    (k <= 1)%nat /\
    cf_heads (events_of r) = heads i k /\
    (is_done r = true -> k = 1%nat) /\
    (k <> 0%nat -> 3 * i + 3 <= len) /\
    walked len a r n.
Proof.
  intros r.
  assert (exists n, walked len a r n) as (n & W).
  { destruct (resync_walked fuel Resync (wrap32 (off * 3)) a) as (n1 & W1).
    apply (walked_bind a _ _ n1 W1). intros a1 out _.
    destruct (call_cf_events dwords (i * 3) level i off cnt)
      as [-> | (dw & text & _ & ->)].
    - exists 0%nat. apply walked_stopped; reflexivity.
    - rewrite bind_Done.
      destruct (body_walked (Z.to_nat cnt) a1) as (n2 & W2).
      exists n2. apply walked_prepend; [reflexivity | exact W2]. }
  pose proof (resync_no_heads fuel Resync (wrap32 (off * 3)) a) as Hg.
  subst r.
  destruct (resync fuel Resync dwords level (wrap32 (off * 3)) a)
    as [a1 e1 | e1 | e1]; cbn [events_of] in Hg.
  - rewrite bind_Done in *.
    destruct (call_cf_events dwords (i * 3) level i off cnt)
      as [E | (dw & text & Hs & E)]; rewrite E in *.
    + exists 0%nat, n. split; [lia|]. split; [|split; [|split]].
      * cbn [bind prepend events_of]. rewrite app_nil_r. exact Hg.
      * discriminate.
      * intros H; contradiction.
      * exact W.
    + rewrite bind_Done in *. apply slot_at_Some in Hs.
      exists 1%nat, n. split; [lia|]. split; [|split; [|split]].
      * rewrite !events_prepend, !cf_heads_app, Hg, body_no_heads.
        replace (i * 3) with (3 * i) by lia. reflexivity.
      * reflexivity.
      * intros _. lia.
      * exact W.
  - exists 0%nat, n. split; [lia|]. split; [exact Hg|].
    split; [discriminate|]. split; [intros H; contradiction | exact W].
  - exists 0%nat, n. split; [lia|]. split; [exact Hg|].
    split; [discriminate|]. split; [intros H; contradiction | exact W].
Qed.

Lemma cf_entry_any (fuel : nat) (sizedwords i a : Z) :
  0 <= i < 4096 ->
  let r := cf_entry fuel dwords sizedwords level i a in
  exists k n,
    (k <= 1)%nat /\
    cf_heads (events_of r) = heads i k /\
    (is_done r = true -> k = 1%nat) /\
    (k <> 0%nat -> 3 * i + 3 <= len) /\
    walked len a r n.
Proof.
  intros Hi r. subst r. unfold cf_entry.
  rewrite (wrap32_small (i * 3)) by lia.
  destruct (read_events dwords (i * 3)) as [-> | (w & ->)].
  - exists 0%nat, 0%nat. split; [lia|]. split; [reflexivity|].
    split; [discriminate|]. split; [intros H; contradiction|].
    apply walked_stopped; reflexivity.
  - rewrite bind_ret_l. destruct (w =? 0).
    + cbv zeta. rewrite bind_assoc. unfold emit.
      rewrite bind_Done, bind_ret_l. cbv beta iota.
      destruct (cf_entry_rest fuel i a (a / 3)
                  (wrap32 (Z.quot sizedwords 3 - a / 3)))
        as (k & n & Hk & Hh & Hd & Hb & W).
      exists k, n. split; [exact Hk|]. split; [|split; [|split]].
      * rewrite events_prepend, cf_heads_app. exact Hh.
      * rewrite is_done_prepend. exact Hd.
      * exact Hb.
      * apply walked_prepend; [reflexivity | exact W].
    + rewrite bind_ret_l. apply cf_entry_rest.
Qed.

Lemma cf_loop_any (m fuel : nat) (sizedwords i a : Z) :
  0 <= i -> i + Z.of_nat m <= 4096 ->
  let r := cf_loop m fuel dwords sizedwords level i a in
  exists k n,
    (k <= m)%nat /\
    cf_heads (events_of r) = heads i k /\
    (is_done r = true -> k = m) /\
    (k <> 0%nat -> 3 * (i + Z.of_nat k) <= len) /\
    walked len a r n.
Proof.
  revert i a. induction m as [|m IH]; intros i a Hi Hm; cbn [cf_loop].
  - exists 0%nat, 0%nat. split; [lia|]. split; [reflexivity|].
    split; [reflexivity|]. split; [intros H; contradiction|].
    apply walked_ret.
  - cbv zeta. rewrite (wrap32_small (i + 1)) by lia.
    destruct (cf_entry_any fuel sizedwords i a ltac:(lia))
      as (k1 & n1 & Hk1 & Hh1 & Hd1 & Hb1 & W1).
    assert (exists n, walked len a
              (a1 <- cf_entry fuel dwords sizedwords level i a ;;
               cf_loop m fuel dwords sizedwords level (i + 1) a1) n)
      as (n & W).
    { apply (walked_bind a _ _ n1 W1). intros a1 out _.
      destruct (IH (i + 1) a1 ltac:(lia) ltac:(lia))
        as (k2 & n2 & _ & _ & _ & _ & W2).
      exists n2. exact W2. }
    destruct (cf_entry fuel dwords sizedwords level i a)
      as [a1 e1 | e1 | e1]; cbn [events_of is_done] in *.
    + specialize (Hd1 eq_refl). subst k1.
      destruct (IH (i + 1) a1 ltac:(lia) ltac:(lia))
        as (k2 & n2 & Hk2 & Hh2 & Hd2 & Hb2 & _).
      rewrite bind_Done in *.
      exists (S k2), n. split; [lia|]. split; [|split; [|split]].
      * rewrite events_prepend, cf_heads_app, Hh1, Hh2. reflexivity.
      * rewrite is_done_prepend. intros H. f_equal. exact (Hd2 H).
      * intros _. destruct k2 as [|k2]; lia.
      * exact W.
    + exists k1, n. split; [lia|]. split; [exact Hh1|].
      split; [discriminate|]. split; [|exact W].
      intros H. specialize (Hb1 H). lia.
    + exists k1, n. split; [lia|]. split; [exact Hh1|].
      split; [discriminate|]. split; [|exact W].
      intros H. specialize (Hb1 H). lia.
Qed.

(** a run has printed the CF entries [0 .. k - 1] from the first [k]
    slots and decoded [n] slots in a row from the slot [f] on, with
    [k <= f], all inside the buffer *)
Lemma disasm_run_any (sizedwords : Z) :
  let evs := events_of (disasm_run dwords sizedwords level) in
  exists k n f : nat,
    (k <= f)%nat /\
    cf_heads evs = heads 0 k /\
    (k <> 0%nat -> 3 * Z.of_nat k <= len) /\
    inst_slots evs = stride3 (3 * Z.of_nat f) n /\
    (n <> 0%nat -> 3 * Z.of_nat f + 3 * Z.of_nat n <= len).
Proof.
  cbv zeta. unfold disasm_run.
  destruct (read_events dwords 0) as [-> | (w0 & ->)].
  - exists 0%nat, 0%nat, 0%nat. repeat split; try reflexivity; lia.
  - rewrite bind_ret_l. destruct (w0 =? 0) eqn:E0.
    + apply Z.eqb_eq in E0. subst w0.
      change (Z.to_nat (Z.land 0 4095)) with 0%nat.
      cbv zeta. rewrite bind_assoc.
      destruct (call_cf_events dwords 0 level 0 1
                  (wrap32 (Z.quot sizedwords 3 - 1)))
        as [-> | (dw & text & Hs & ->)].
      * exists 0%nat, 0%nat, 0%nat. repeat split; try reflexivity; lia.
      * apply slot_at_Some in Hs.
        rewrite bind_Done, bind_ret_l. cbn [cf_loop]. rewrite bind_ret_l.
        change (wrap32 (1 * 3)) with 3.
        destruct (resync_walked (S (List.length dwords)) Trailing
                    (wrap32 sizedwords) 3) as (n & He & _ & Hb).
        exists 1%nat, n, 1%nat. split; [lia|].
        rewrite events_prepend, cf_heads_app, inst_slots_app,
          resync_no_heads, He.
        repeat split; try reflexivity; lia.
    + rewrite bind_ret_l.
      pose proof (first_off_range w0) as Hf.
      rewrite (wrap32_small (Z.land w0 4095 * 3)) by lia.
      set (F := Z.land w0 4095) in *.
      destruct (cf_loop_any (Z.to_nat F) (S (List.length dwords))
                  sizedwords 0 (F * 3) ltac:(lia) ltac:(lia))
        as (k & n1 & Hk & Hh & _ & Hb & W1).
      destruct (walked_bind (F * 3) _
                  (fun a => resync (S (List.length dwords)) Trailing dwords
                              level (wrap32 sizedwords) a) n1 W1)
        as (n & He & _ & Hbn).
      { intros a1 out _. apply resync_walked. }
      exists k, n, (Z.to_nat F). split; [exact Hk|].
      replace (3 * Z.of_nat (Z.to_nat F)) with (F * 3) by lia.
      split; [|split; [|split]].
      * rewrite events_bind, cf_heads_app, Hh.
        destruct (cf_loop _ _ _ _ _ _ _); rewrite ?resync_no_heads;
          apply app_nil_r.
      * intros H. specialize (Hb H). lia.
      * exact He.
      * intros H. specialize (Hbn H). lia.
Qed.

End AnyRun.

Lemma stride3_bounds (a x : Z) (n : nat) :
  In x (stride3 a n) ->
  a <= x /\ x + 3 <= a + 3 * Z.of_nat n /\ (x - a) mod 3 = 0.
Proof.
  revert a. induction n as [|n IH]; intros a; cbn [stride3 In]; [tauto|].
  intros [<- | H].
  - rewrite Z.sub_diag. split; [lia|]. split; [lia | reflexivity].
  - apply IH in H. destruct H as (H1 & H2 & H3).
    split; [lia|]. split; [lia|].
    replace (x - a) with (x - (a + 3) + 1 * 3) by lia.
    rewrite Z.mod_add by lia. exact H3.
Qed.

Lemma cf_slots_heads (evs : list event) :
  cf_slots evs = map fst (cf_heads evs).
Proof.
  induction evs as [|e evs IH]; [reflexivity|].
  unfold cf_slots, cf_heads in *. cbn [flat_map].
  rewrite map_app, IH. destruct e; reflexivity.
Qed.

Lemma cf_indices_heads (evs : list event) :
  cf_indices evs = map snd (cf_heads evs).
Proof.
  induction evs as [|e evs IH]; [reflexivity|].
  unfold cf_indices, cf_entries, cf_heads in *. cbn [flat_map].
  rewrite !map_app, IH. destruct e; reflexivity.
Qed.

Lemma heads_slots (i : Z) (k : nat) :
  map fst (heads i k) = stride3 (3 * i) k.
Proof.
  revert i. induction k as [|k IH]; intros i; cbn [heads map stride3 fst];
    [reflexivity|].
  rewrite IH. do 2 f_equal. lia.
Qed.

Lemma heads_indices (k : nat) :
  map snd (heads 0 k) = map Z.of_nat (seq 0 k).
Proof.
  assert (forall i : nat,
            map snd (heads (Z.of_nat i) k) = map Z.of_nat (seq i k)) as G.
  { induction k as [|k IH]; intros i; cbn [heads map seq snd];
      [reflexivity|].
    f_equal. rewrite <- IH. do 2 f_equal. lia. }
  exact (G 0%nat).
Qed.

(** X6: in every run of [disasm] on a buffer whose length fits an
    [int], however the run ends, no slot is decoded twice, neither as a
    CF entry nor as an instruction, and every slot decoded starts at a
    multiple of 3 and lies wholly inside the buffer. *)
Theorem no_slot_decoded_twice (dwords : list Z) (sizedwords level : Z) :
  Z.of_nat (List.length dwords) <= INT_MAX ->
  let evs := events_of (disasm dwords sizedwords level) in
  NoDup (decoded_slots evs) /\
  Forall (fun a => 0 <= a /\ a mod 3 = 0 /\
                   a + 3 <= Z.of_nat (List.length dwords))
         (decoded_slots evs).
Proof.
  intros Hfit. cbv zeta. rewrite events_of_disasm.
  destruct (disasm_run_any dwords level Hfit sizedwords)
    as (k & n & f & Hk & Hh & Hbk & Hi & Hbn).
  set (evs := events_of (disasm_run dwords sizedwords level)) in *.
  assert (cf_slots evs = stride3 0 k) as Hc
    by (rewrite cf_slots_heads, Hh, heads_slots; reflexivity).
  pose proof (decoded_slots_split evs) as P. rewrite Hc, Hi in P.
  split.
  - apply (Permutation_NoDup (Permutation_sym P)).
    apply NoDup_app; try apply stride3_NoDup.
    intros x H1 H2. apply stride3_bounds in H1. apply stride3_bounds in H2.
    lia.
  - apply (Permutation_Forall (Permutation_sym P)).
    apply Forall_app. split; apply Forall_forall; intros x H;
      apply stride3_bounds in H; destruct H as (H1 & H2 & H3).
    + rewrite Z.sub_0_r in H3.
      assert (k <> 0%nat) as Hk0 by (intros ->; lia).
      specialize (Hbk Hk0). lia.
    + assert (n <> 0%nat) as Hn0 by (intros ->; lia).
      specialize (Hbn Hn0).
      replace x with (x - 3 * Z.of_nat f + Z.of_nat f * 3) by lia.
      rewrite Z.mod_add by lia. lia.
Qed.

Lemma no_slot_decoded_twice_witness :
  NoDup (decoded_slots (events_of (disasm entry_past_end 12 0))) /\
  Forall (fun a => 0 <= a /\ a mod 3 = 0 /\
                   a + 3 <= Z.of_nat (List.length entry_past_end))
         (decoded_slots (events_of (disasm entry_past_end 12 0))).
Proof.
  apply (no_slot_decoded_twice entry_past_end 12 0).
  unfold INT_MAX. cbn. lia.
Defined.

(** X7: in every run of [disasm] on a buffer whose length fits an
    [int], however the run ends, the CF entries printed are the entries
    of index 0, 1, .. in this order without a gap, the entry of index
    [i] being made from the slot at word [3 * i], and no instruction is
    decoded from a slot that lies before the header slot of a CF entry
    printed. *)
Theorem cf_entries_in_order (dwords : list Z) (sizedwords level : Z) :
  Z.of_nat (List.length dwords) <= INT_MAX ->
  let evs := events_of (disasm dwords sizedwords level) in
  exists k : nat,
    cf_heads evs = heads 0 k /\
    cf_indices evs = map Z.of_nat (seq 0 k) /\
    Forall (fun a => 3 * Z.of_nat k <= a) (inst_slots evs).
Proof.
  intros Hfit. cbv zeta. rewrite events_of_disasm.
  destruct (disasm_run_any dwords level Hfit sizedwords)
    as (k & n & f & Hk & Hh & _ & Hi & _).
  exists k. split; [exact Hh|]. split.
  - rewrite cf_indices_heads, Hh. apply heads_indices.
  - rewrite Hi. apply Forall_forall. intros x H.
    apply stride3_bounds in H. lia.
Qed.

Lemma cf_entries_in_order_witness :
  exists k : nat,
    cf_heads (events_of (disasm sample 24 0)) = heads 0 k /\
    cf_indices (events_of (disasm sample 24 0)) = map Z.of_nat (seq 0 k) /\
    Forall (fun a => 3 * Z.of_nat k <= a)
           (inst_slots (events_of (disasm sample 24 0))).
Proof.
  apply (cf_entries_in_order sample 24 0).
  unfold INT_MAX. cbn. lia.
Defined.

(** X8: on a buffer whose length fits an [int], [disasm] always comes to
    an end: it either returns, and then with the value 0, or reads
    outside the buffer or one of its tables; its [while] loops never
    run on inside the buffer. *)
Theorem disasm_returns_or_faults (dwords : list Z) (sizedwords level : Z) :
  Z.of_nat (List.length dwords) <= INT_MAX ->
  (exists evs, disasm dwords sizedwords level = Done 0 evs) \/
  (exists evs, disasm dwords sizedwords level = Fault evs).
Proof.
  intros Hfit.
  pose proof (disasm_no_timeout dwords level Hfit sizedwords) as T.
  destruct (disasm dwords sizedwords level) as [r evs | evs | evs] eqn:E;
    [left | right; eauto | discriminate].
  unfold disasm in E. apply bind_Done_inv in E.
  destruct E as (a & e1 & e2 & _ & R & _). injection R as <- _. eauto.
Qed.

Lemma disasm_returns_or_faults_witness :
  (exists evs, disasm backward_entry 9 0 = Done 0 evs) \/
  (exists evs, disasm backward_entry 9 0 = Fault evs).
Proof.
  apply (disasm_returns_or_faults backward_entry 9 0).
  unfold INT_MAX. cbn. lia.
Defined.

(** ** The guards, in general *)

Lemma resync_done_ahead (dwords : list Z) (level : Z) (fuel : nat)
    (s : site) (target a : Z) :
  Z.of_nat (List.length dwords) <= INT_MAX ->
  is_done (resync fuel s dwords level target a) = true ->
  ahead (Z.of_nat (List.length dwords)) target a.
Proof.
  intros Hfit Hd.
  destruct (resync_walked dwords level Hfit fuel s target a)
    as (n & _ & Hw & Hb).
  destruct (resync fuel s dwords level target a) as [a' evs| |] eqn:E;
    try discriminate.
  apply (resync_Done dwords level Hfit) in E. destruct E as (-> & _).
  specialize (Hw target evs eq_refl).
  destruct n as [|n]; [left; lia|]. right.
  specialize (Hb ltac:(lia)).
  split; [lia|]. split; [lia|].
  replace (target - a) with (0 + Z.of_nat (S n) * 3) by lia.
  rewrite Z.mod_add by lia. reflexivity.
Qed.

(** X9: a guard stops at its target only when the target is the cursor
    or lies a whole number of slots ahead of it inside the buffer.  For
    any other target (behind the cursor, past the end of the buffer, or
    not a multiple of 3 away) it never stops, whatever the number of
    iterations allowed, and with the iterations that [disasm] allows it
    ends by reading outside the buffer or a table. *)
Theorem resync_stops_only_ahead (dwords : list Z) (level : Z) (s : site)
    (target a : Z) :
  Z.of_nat (List.length dwords) <= INT_MAX ->
  ~ ahead (Z.of_nat (List.length dwords)) target a ->
  (forall fuel, is_done (resync fuel s dwords level target a) = false) /\
  is_fault (resync (S (List.length dwords)) s dwords level target a) = true.
Proof.
  intros Hfit Hn.
  assert (forall fuel, is_done (resync fuel s dwords level target a) = false)
    as Hd.
  { intros fuel.
    destruct (is_done (resync fuel s dwords level target a)) eqn:E;
      [|reflexivity].
    exfalso. apply Hn. exact (resync_done_ahead _ _ _ _ _ _ Hfit E). }
  split; [exact Hd|].
  specialize (Hd (S (List.length dwords))).
  pose proof (resync_no_timeout dwords level Hfit (S (List.length dwords))
                s target a ltac:(lia)) as Ht.
  destruct (resync (S (List.length dwords)) s dwords level target a);
    [discriminate | reflexivity | discriminate].
Qed.

Lemma resync_stops_only_ahead_witness :
  (forall fuel, is_done (resync fuel Resync backward_entry 0 6 9) = false) /\
  is_fault (resync (S (List.length backward_entry)) Resync backward_entry
              0 6 9) = true.
Proof.
  apply (resync_stops_only_ahead backward_entry 0 Resync 6 9).
  - unfold INT_MAX. cbn. lia.
  - unfold ahead. cbn. lia.
Defined.

Lemma call_inst_decodable (s : site) (dwords : list Z) (a level : Z) :
  is_done (call_inst s dwords a level) = slot_decodable dwords level a.
Proof.
  unfold call_inst, slot_decodable.
  destruct (slot_at dwords a) as [[[d0 d1] d2]|]; cbn [obind];
    [|reflexivity].
  pose proof (disasm_inst_None d0 d1 d2 level) as N.
  destruct (disasm_inst (d0, d1, d2) level) as [text|]; cbn [is_done emit].
  - symmetry. apply andb_true_iff. split; [apply andb_true_iff; split|].
    + apply Z.leb_le. destruct (Z_lt_dec level 0); [|lia].
      exfalso. assert (Some text = None) by (apply N; lia). discriminate.
    + apply Z.leb_le. destruct (Z_lt_dec 14 level); [|lia].
      exfalso. assert (Some text = None) by (apply N; lia). discriminate.
    + apply negb_true_iff, Z.eqb_neq. intros E.
      assert (Some text = None) by (apply N; auto). discriminate.
  - symmetry. destruct N as [N _]. specialize (N eq_refl).
    destruct N as [N | [N | N]].
    + replace (0 <=? level) with false by (symmetry; apply Z.leb_gt; lia).
      reflexivity.
    + replace (level <=? 14) with false by (symmetry; apply Z.leb_gt; lia).
      apply andb_false_iff. left. apply andb_false_r.
    + rewrite N. apply andb_false_r.
Qed.

(** X10: a guard whose target lies [n] slots ahead of the cursor, all of
    them inside the buffer and decodable at the level given, stops at
    the target after [n] iterations: it prints a question mark before
    each of these slots and decodes each of them once, in order. *)
Theorem resync_skips_forward (dwords : list Z) (level : Z) (n fuel : nat)
    (s : site) (target a : Z) :
  Z.of_nat (List.length dwords) <= INT_MAX ->
  target = a + 3 * Z.of_nat n ->
  (n <= fuel)%nat ->
  (forall k, (k < n)%nat ->
     slot_decodable dwords level (a + 3 * Z.of_nat k) = true) ->
  exists evs,
    resync fuel s dwords level target a = Done target evs /\
    map shape_of evs = skipped s a n.
Proof.
  intros Hfit Ht Hfuel Hdec.
  apply (resync_forward dwords level Hfit n fuel s target a Ht Hfuel).
  intros k Hk. rewrite call_inst_decodable. apply Hdec. exact Hk.
Qed.

Lemma resync_skips_forward_witness :
  exists evs,
    resync 9 Trailing sample 0 24 18 = Done 24 evs /\
    map shape_of evs = skipped Trailing 18 2.
Proof.
  apply (resync_skips_forward sample 0 2 9 Trailing 24 18).
  - unfold INT_MAX. cbn. lia.
  - reflexivity.
  - lia.
  - intros [|[|k]] Hk; [reflexivity | reflexivity | lia].
Defined.

(** ** Runs that come to their end *)

Lemma stride3_In (a : Z) (n k : nat) :
  (k < n)%nat -> In (a + 3 * Z.of_nat k) (stride3 a n).
Proof.
  revert a k. induction n as [|n IH]; intros a k Hk; [lia|].
  cbn [stride3 In]. destruct k as [|k]; [left; lia|]. right.
  replace (a + 3 * Z.of_nat (S k)) with (a + 3 + 3 * Z.of_nat k) by lia.
  apply IH. lia.
Qed.

Lemma insts_decodable_at (dwords : list Z) (level f q : Z) :
  insts_decodable dwords level f = true ->
  f <= q -> 3 * q + 3 <= Z.of_nat (List.length dwords) ->
  slot_decodable dwords level (3 * q) = true.
Proof.
  unfold insts_decodable. intros H Hq Hlen.
  rewrite forallb_forall in H. apply H.
  replace (3 * q) with (3 * f + 3 * Z.of_nat (Z.to_nat (q - f))) by lia.
  apply stride3_In.
  assert (q + 1 <= Z.of_nat (List.length dwords) / 3)
    by (apply Z.div_le_lower_bound; lia).
  lia.
Qed.

Lemma slot_decodable_at (dwords : list Z) (level a : Z) :
  slot_decodable dwords level a = true ->
  exists dw, slot_at dwords a = Some dw.
Proof.
  unfold slot_decodable. destruct (slot_at dwords a) as [dw|];
    [eauto | discriminate].
Qed.

Lemma slot_at_inside (dwords : list Z) (a : Z) :
  0 <= a -> a + 3 <= Z.of_nat (List.length dwords) ->
  exists dw, slot_at dwords a = Some dw.
Proof.
  intros H0 H3. unfold slot_at.
  destruct (index_bounds dwords a ltac:(lia)) as [d0 ->].
  destruct (index_bounds dwords (a + 1) ltac:(lia)) as [d1 ->].
  destruct (index_bounds dwords (a + 2) ltac:(lia)) as [d2 ->].
  cbn [obind]. eauto.
Qed.

Lemma cf_heads_entries (evs : list event) :
  cf_heads evs = [] -> cf_entries evs = [].
Proof.
  induction evs as [|e evs IH]; [reflexivity|].
  unfold cf_heads, cf_entries in *. cbn [flat_map].
  destruct e; cbn [cf_head_of cf_entry_of app]; try exact IH. discriminate.
Qed.

Lemma no_mark_shapes (evs : list event) :
  ~ In SMark (map shape_of evs) -> ~ In EMark evs.
Proof.
  intros H M. apply H. change SMark with (shape_of EMark).
  apply in_map. exact M.
Qed.

Section Complete.

Variable dwords : list Z.
Variable level : Z.
Hypothesis size_fits_int : Z.of_nat (List.length dwords) <= INT_MAX.

Local Abbreviation len := (Z.of_nat (List.length dwords)).

Lemma body_forward (n : nat) (a : Z) :
  (forall k, (k < n)%nat ->
     slot_decodable dwords level (a + 3 * Z.of_nat k) = true) ->
  exists evs,
    body n dwords level a = Done (a + 3 * Z.of_nat n) evs /\
    map shape_of evs = map (SInst Body) (stride3 a n).
Proof.
  revert a. induction n as [|n IH]; intros a Hdec; cbn [body].
  - exists []. split; [|reflexivity]. unfold ret. f_equal. lia.
  - pose proof (Hdec 0%nat ltac:(lia)) as H0.
    replace (a + 3 * Z.of_nat 0) with a in H0 by lia.
    rewrite <- (call_inst_decodable Body) in H0.
    destruct (call_inst Body dwords a level) as [u e| |] eqn:C;
      try discriminate.
    destruct (call_inst_Done _ _ _ _ _ _ C) as (dw & text & Hs & _ & ->).
    rewrite (next_cursor dwords size_fits_int a dw Hs).
    destruct (IH (a + 3)) as (evs & Hr & Hsh).
    { intros k Hk. specialize (Hdec (S k) ltac:(lia)).
      replace (a + 3 + 3 * Z.of_nat k) with (a + 3 * Z.of_nat (S k)) by lia.
      exact Hdec. }
    exists (EInst Body a text :: evs). split.
    + rewrite bind_Done, Hr. cbn [prepend app]. f_equal. lia.
    + cbn [map shape_of stride3]. rewrite Hsh. reflexivity.
Qed.

Lemma count_range (w : Z) : 0 <= Z.shiftr (Z.land w 0xf000) 12 < 16.
Proof.
  rewrite Z.shiftr_land. change (Z.shiftr 0xf000 12) with (Z.ones 4).
  rewrite land_shiftr_field by lia.
  exact (bit_field_range w 12 4 ltac:(lia)).
Qed.

Lemma tiled_mono (m : nat) (i c c' : Z) :
  tiled m dwords i c = Some c' -> c <= c'.
Proof.
  revert i c. induction m as [|m IH]; intros i c; cbn [tiled].
  - intros [= <-]. lia.
  - destruct (index dwords (3 * i)) as [w|]; [|discriminate].
    destruct ((w =? 0) || negb (Z.land w 4095 * 3 =? c)); [discriminate|].
    intros H. apply IH in H. pose proof (count_range w). lia.
Qed.

Lemma cf_loop_tiled (m fuel : nat) (sizedwords i q c' : Z) :
  tiled m dwords i (3 * q) = Some c' ->
  0 <= i -> i + Z.of_nat m <= 4096 -> i + Z.of_nat m <= q ->
  c' <= len -> 0 <= level <= 14 ->
  (forall q', q <= q' -> 3 * q' + 3 <= c' ->
     slot_decodable dwords level (3 * q') = true) ->
  exists evs,
    cf_loop m fuel dwords sizedwords level i (3 * q) = Done c' evs /\
    ~ In SMark (map shape_of evs) /\
    cf_entries evs = header_entries dwords i m.
Proof.
  revert i q. induction m as [|m IH]; intros i q Ht Hi Hm Hq Hc Hl Hdec;
    cbn [tiled cf_loop header_entries] in *.
  - injection Ht as <-. exists []. split; [reflexivity|].
    split; [intros []|reflexivity].
  - unfold header_entry.
    destruct (index dwords (3 * i)) as [w|] eqn:Ew; [|discriminate].
    destruct (w =? 0) eqn:Ez; [discriminate|]. cbn [orb] in Ht.
    destruct (Z.land w 4095 * 3 =? 3 * q) eqn:Eo; [|discriminate].
    cbn [negb] in Ht. apply Z.eqb_eq in Eo.
    assert (Z.land w 4095 = q) as Hoff by lia. rewrite Hoff.
    set (cnt := Z.shiftr (Z.land w 61440) 12) in *.
    pose proof (count_range w) as Rc. fold cnt in Rc.
    pose proof (tiled_mono _ _ _ _ Ht) as Hmono.
    destruct (slot_at_inside dwords (i * 3) ltac:(lia) ltac:(lia))
      as (dw & Hs).
    destruct (disasm_cf_defined dw level i q cnt Hl) as (text & Htext).
    destruct (body_forward (Z.to_nat cnt) (3 * q)) as (eb & Hb & Hsb).
    { intros k Hk.
      replace (3 * q + 3 * Z.of_nat k) with (3 * (q + Z.of_nat k)) by lia.
      apply Hdec; lia. }
    replace (3 * q + 3 * cnt) with (3 * (q + cnt)) in Ht by lia.
    destruct (IH (i + 1) (q + cnt) Ht ltac:(lia) ltac:(lia) ltac:(lia)
                Hc Hl) as (er & Hr & Hnr & Her).
    { intros q' H1 H2. apply Hdec; lia. }
    exists ((ECf (i * 3) i q cnt text :: eb) ++ er)%list.
    assert (cf_entry fuel dwords sizedwords level i (3 * q) =
            Done (3 * (q + cnt)) (ECf (i * 3) i q cnt text :: eb)) as He.
    { unfold cf_entry. rewrite (wrap32_small (i * 3)) by lia.
      unfold read. replace (i * 3) with (3 * i) by lia. rewrite Ew.
      rewrite bind_ret_l, Ez, bind_ret_l, Hoff. fold cnt.
      replace (3 * i) with (i * 3) by lia.
      replace (wrap32 (q * 3)) with (3 * q)
        by (rewrite wrap32_small; pose proof (first_off_range w); lia).
      rewrite resync_at_target, bind_ret_l.
      unfold call_cf. rewrite Hs. cbn [obind].
      rewrite Htext. unfold emit. rewrite bind_Done, Hb.
      cbn [prepend app]. f_equal. lia. }
    rewrite He, bind_Done, (wrap32_small (i + 1)) by lia. rewrite Hr.
    cbn [prepend]. split; [reflexivity|]. split.
    + rewrite map_app. cbn [map shape_of]. rewrite Hsb.
      intros H. apply in_app_or in H. destruct H as [[H | H] | H].
      * discriminate.
      * apply in_map_iff in H. destruct H as (x & H & _). discriminate.
      * exact (Hnr H).
    + unfold cf_entries in *. rewrite flat_map_app. cbn [flat_map cf_entry_of].
      rewrite Her. cbn [app]. f_equal.
      assert (cf_heads eb = []) as Hh.
      { pose proof (body_no_heads dwords level (Z.to_nat cnt) (3 * q)) as B.
        rewrite Hb in B. exact B. }
      apply cf_heads_entries in Hh. unfold cf_entries in Hh. rewrite Hh.
      reflexivity.
Qed.

End Complete.

(** X11: when the CF entries of a buffer declare ranges that tile the
    slots after the header region up to the end of the buffer, none of
    their header words being 0, and these slots are decodable at the
    level given, [disasm] returns 0, prints no question mark, and prints
    one CF entry per header slot with the address and count that its
    header word declares (bits 0 to 11 and 12 to 15). *)
Theorem well_tiled_run_is_clean (dwords : list Z) (level : Z) :
  well_tiled dwords = true ->
  Z.of_nat (List.length dwords) <= INT_MAX ->
  0 <= level <= 14 ->
  insts_decodable dwords level (first_off dwords) = true ->
  exists evs,
    disasm dwords (Z.of_nat (List.length dwords)) level = Done 0 evs /\
    ~ In EMark evs /\
    cf_entries evs =
      header_entries dwords 0 (Z.to_nat (first_off dwords)).
Proof.
  intros Ht Hfit Hl Hdec. unfold well_tiled in Ht. cbv zeta in Ht.
  unfold first_off in *.
  destruct (index dwords 0) as [w0|] eqn:E0; [|discriminate].
  destruct (tiled (Z.to_nat (Z.land w0 4095)) dwords 0
              (3 * Z.land w0 4095)) as [c|] eqn:T; [|discriminate].
  apply Z.eqb_eq in Ht. subst c.
  pose proof (first_off_range w0) as Hf.
  set (F := Z.land w0 4095) in *.
  assert ((w0 =? 0) = false) as Ez.
  { apply Z.eqb_neq. intros ->. subst F. cbn in T. injection T as T.
    apply index_Some_bounds in E0. lia. }
  destruct (cf_loop_tiled dwords level Hfit (Z.to_nat F)
              (S (List.length dwords)) (Z.of_nat (List.length dwords))
              0 F (Z.of_nat (List.length dwords)) T)
    as (evs & Hr & Hn & He); try lia.
  { intros q' H1 H2. exact (insts_decodable_at _ _ _ _ Hdec H1 H2). }
  exists evs. split; [|split; [apply no_mark_shapes; exact Hn | exact He]].
  unfold disasm, disasm_run, read. rewrite E0, bind_ret_l, Ez, bind_ret_l.
  fold F. rewrite (wrap32_small (F * 3)) by lia.
  replace (F * 3) with (3 * F) by lia. rewrite Hr, bind_Done.
  rewrite (wrap32_small (Z.of_nat (List.length dwords)))
    by (unfold INT_MAX in Hfit; lia).
  rewrite resync_at_target. cbn. rewrite !app_nil_r. reflexivity.
Qed.

Lemma well_tiled_run_is_clean_witness :
  exists evs,
    disasm sample (Z.of_nat (List.length sample)) 0 = Done 0 evs /\
    ~ In EMark evs /\
    cf_entries evs = header_entries sample 0 (Z.to_nat (first_off sample)).
Proof.
  apply (well_tiled_run_is_clean sample 0).
  - reflexivity.
  - unfold INT_MAX. cbn. lia.
  - lia.
  - reflexivity.
Defined.

Lemma trailing_drain (dwords : list Z) (level f : Z) :
  Z.of_nat (List.length dwords) <= INT_MAX ->
  Z.of_nat (List.length dwords) mod 3 = 0 ->
  0 <= f -> 3 * f <= Z.of_nat (List.length dwords) ->
  insts_decodable dwords level f = true ->
  exists evs,
    resync (S (List.length dwords)) Trailing dwords level
           (Z.of_nat (List.length dwords)) (3 * f)
      = Done (Z.of_nat (List.length dwords)) evs /\
    map shape_of evs =
      skipped Trailing (3 * f)
              (Z.to_nat (Z.of_nat (List.length dwords) / 3 - f)).
Proof.
  intros Hfit Hmod H0 Hf Hdec.
  assert (Z.of_nat (List.length dwords) =
          3 * (Z.of_nat (List.length dwords) / 3)) as Hd
    by (apply Z.div_exact; lia).
  apply (resync_forward dwords level Hfit); [lia | lia |].
  intros k Hk. rewrite call_inst_decodable.
  replace (3 * f + 3 * Z.of_nat k) with (3 * (f + Z.of_nat k)) by lia.
  apply (insts_decodable_at _ _ _ _ Hdec); lia.
Qed.

(** X12: when the first word of the buffer is 0, the length a multiple
    of 3 and every slot after the first decodable at the level given,
    [disasm] returns 0 having printed the CF entry of index 0 with
    address 1 and count [length / 3 - 1], and then every other slot of
    the buffer once, in order, each after a question mark: the count of
    that CF entry is not used to decode a body. *)
Theorem zero_header_run_drains (w1 w2 : Z) (rest : list Z) (level : Z) :
  let dwords := 0 :: w1 :: w2 :: rest in
  let n := Z.of_nat (List.length dwords) / 3 in
  Z.of_nat (List.length dwords) <= INT_MAX ->
  Z.of_nat (List.length dwords) mod 3 = 0 ->
  0 <= level <= 14 ->
  insts_decodable dwords level 1 = true ->
  exists text evs,
    disasm dwords (Z.of_nat (List.length dwords)) level =
      Done 0 (ECf 0 0 1 (n - 1) text :: evs) /\
    map shape_of evs = skipped Trailing 3 (Z.to_nat (n - 1)).
Proof.
  intros dwords n Hfit Hmod Hl Hdec.
  assert (3 <= Z.of_nat (List.length dwords)) as H3
    by (subst dwords; cbn [List.length]; lia).
  destruct (disasm_cf_defined (0, w1, w2) level 0 1 (n - 1) Hl)
    as (text & Htext).
  destruct (trailing_drain dwords level 1 Hfit Hmod ltac:(lia) ltac:(lia)
              Hdec) as (evs & Hr & Hs).
  exists text, evs. split; [|exact Hs].
  assert (wrap32 (Z.quot (Z.of_nat (List.length dwords)) 3 - 1) = n - 1)
    as Hcnt.
  { rewrite Z.quot_div_nonneg by lia. fold n. apply wrap32_small.
    unfold INT_MAX in Hfit.
    assert (1 <= n) by (apply Z.div_le_lower_bound; lia).
    assert (n < 2 ^ 31) by (apply Z.div_lt_upper_bound; lia). lia. }
  unfold disasm, disasm_run.
  change (read dwords 0) with (@ret Z 0). rewrite bind_ret_l.
  change (0 =? 0) with true. cbv iota zeta.
  change (Z.to_nat (Z.land 0 4095)) with 0%nat. cbn [cf_loop].
  rewrite Hcnt. unfold call_cf.
  change (slot_at dwords 0) with (Some (0, w1, w2)). cbn [obind].
  rewrite Htext. unfold emit. rewrite !bind_assoc, bind_Done.
  rewrite !bind_ret_l.
  rewrite (wrap32_small (Z.of_nat (List.length dwords)))
    by (unfold INT_MAX in Hfit; lia).
  change (wrap32 (1 * 3)) with (3 * 1). rewrite Hr.
  cbn. rewrite !app_nil_r. reflexivity.
Qed.

Lemma zero_header_run_drains_witness :
  exists text evs,
    disasm [0; 0; 0; 0x10002021; 0x1ffff688; 0x00000002]
           (Z.of_nat (List.length
                        [0; 0; 0; 0x10002021; 0x1ffff688; 0x00000002])) 0 =
      Done 0
        (ECf 0 0 1
           (Z.of_nat (List.length
                        [0; 0; 0; 0x10002021; 0x1ffff688; 0x00000002]) / 3
            - 1) text :: evs) /\
    map shape_of evs =
      skipped Trailing 3
        (Z.to_nat
           (Z.of_nat (List.length
                        [0; 0; 0; 0x10002021; 0x1ffff688; 0x00000002]) / 3
            - 1)).
Proof.
  apply (zero_header_run_drains 0 0 [0x10002021; 0x1ffff688; 0x00000002] 0).
  - unfold INT_MAX. cbn. lia.
  - reflexivity.
  - lia.
  - reflexivity.
Defined.

(** X13: when the first word of the buffer is not 0 but its low 12 bits
    are, [disasm] prints no CF entry at all: the trailing guard decodes
    every slot of the buffer as an instruction, the first slot
    included, each after a question mark (the length being a multiple
    of 3 and the slots decodable at the level given). *)
Theorem no_header_run_drains (dwords : list Z) (level w0 : Z) :
  index dwords 0 = Some w0 ->
  w0 <> 0 ->
  Z.land w0 0xfff = 0 ->
  Z.of_nat (List.length dwords) <= INT_MAX ->
  Z.of_nat (List.length dwords) mod 3 = 0 ->
  insts_decodable dwords level 0 = true ->
  exists evs,
    disasm dwords (Z.of_nat (List.length dwords)) level = Done 0 evs /\
    cf_entries evs = [] /\
    map shape_of evs =
      skipped Trailing 0 (Z.to_nat (Z.of_nat (List.length dwords) / 3)).
Proof.
  intros E0 Hw Hf Hfit Hmod Hdec.
  destruct (trailing_drain dwords level 0 Hfit Hmod ltac:(lia) ltac:(lia)
              Hdec) as (evs & Hr & Hs).
  rewrite Z.sub_0_r in Hs. change (3 * 0) with 0 in *.
  exists evs.
  assert (disasm dwords (Z.of_nat (List.length dwords)) level = Done 0 evs)
    as Hrun.
  { unfold disasm, disasm_run, read. rewrite E0, bind_ret_l.
    apply Z.eqb_neq in Hw. rewrite Hw, bind_ret_l, Hf.
    change (Z.to_nat 0) with 0%nat. cbn [cf_loop]. rewrite bind_ret_l.
    change (wrap32 (0 * 3)) with 0.
    rewrite (wrap32_small (Z.of_nat (List.length dwords)))
      by (unfold INT_MAX in Hfit; lia).
    rewrite Hr. cbn. rewrite app_nil_r. reflexivity. }
  split; [exact Hrun|]. split; [|exact Hs].
  pose proof (resync_no_cf (S (List.length dwords)) Trailing dwords level
                (Z.of_nat (List.length dwords)) 0) as N.
  rewrite Hr in N. exact N.
Qed.

Lemma no_header_run_drains_witness :
  exists evs,
    disasm [0x10002000; 0x1ffff688; 0x00000002]
           (Z.of_nat (List.length [0x10002000; 0x1ffff688; 0x00000002])) 0
      = Done 0 evs /\
    cf_entries evs = [] /\
    map shape_of evs =
      skipped Trailing 0
        (Z.to_nat (Z.of_nat (List.length
                               [0x10002000; 0x1ffff688; 0x00000002]) / 3)).
Proof.
  apply (no_header_run_drains [0x10002000; 0x1ffff688; 0x00000002] 0
           0x10002000).
  - reflexivity.
  - lia.
  - reflexivity.
  - unfold INT_MAX. cbn. lia.
  - reflexivity.
  - reflexivity.
Defined.

(** ** The level is cosmetic *)



Section Levels.

Variable dwords : list Z.
Variables L1 L2 : Z.
Hypothesis L1_valid : 0 <= L1 <= 14.
Hypothesis L2_valid : 0 <= L2 <= 14.









End Levels.



(** ** ALU lines *)

(** X15: for every ALU slot whose opcode field is not 31, [disasm_alu]
    prints a line: the echo of the unidentified bits, then the mnemonic
    of the opcode when it is one of 0, 1, 2, 11, 15, 16 (ADDv, MULv,
    MAXv, MULADDv, DOT4v, DOT3v) and [OP(n)] with the opcode in decimal
    otherwise, then the destination, an equals sign and the two sources
    separated by a comma, as [print_dstreg] and [print_srcreg] print
    them. *)
Theorem disasm_alu_line (d0 d1 d2 level : Z) :
  let f := alu_decode (d0, d1, d2) in
  op f <> 31 ->
  exists dst s1 s2,
    print_dstreg (dst_reg f) (dst_mask f) = Some dst /\
    print_srcreg (src1_reg f) (src1_type f) (src1_swiz f) (src1_neg f)
      = Some s1 /\
    print_srcreg (src2_reg f) (src2_type f) (src2_swiz f) (src2_neg f)
      = Some s2 /\
    disasm_alu (d0, d1, d2) level =
      Some (alu_unknown (d0, d1, d2) ++ mnemonic_text (op f) ++ TAB ++
            dst ++ " = " ++ s1 ++ ", " ++ s2 ++ NL).
Proof.
  intros f Hop.
  destruct (alu_decode_layout d0 d1 d2) as (_ & _ & _ & _ & _ & _ & E).
  pose proof (bit_field_range d2 24 5 ltac:(lia)) as R.
  cbv zeta in E. fold f in E. rewrite <- E in R. change (2 ^ 5) with 32 in R.
  destruct (print_dstreg_defined (dst_reg f) (dst_mask f)) as [dst Hd].
  destruct (print_srcreg_defined (src1_reg f) (src1_type f) (src1_swiz f)
              (src1_neg f)) as [s1 H1].
  destruct (print_srcreg_defined (src2_reg f) (src2_type f) (src2_swiz f)
              (src2_neg f)) as [s2 H2].
  exists dst, s1, s2. repeat (split; [assumption|]).
  unfold disasm_alu. fold f.
  rewrite alu_mnemonic_below_31 by lia. rewrite Hd, H1, H2.
  reflexivity.
Qed.

Lemma disasm_alu_line_witness :
  exists dst s1 s2,
    print_dstreg (dst_reg (alu_decode (0x140f8000, 0x00430000, 0xa3000000)))
                 (dst_mask (alu_decode (0x140f8000, 0x00430000, 0xa3000000)))
      = Some dst /\
    print_srcreg
      (src1_reg (alu_decode (0x140f8000, 0x00430000, 0xa3000000)))
      (src1_type (alu_decode (0x140f8000, 0x00430000, 0xa3000000)))
      (src1_swiz (alu_decode (0x140f8000, 0x00430000, 0xa3000000)))
      (src1_neg (alu_decode (0x140f8000, 0x00430000, 0xa3000000)))
      = Some s1 /\
    print_srcreg
      (src2_reg (alu_decode (0x140f8000, 0x00430000, 0xa3000000)))
      (src2_type (alu_decode (0x140f8000, 0x00430000, 0xa3000000)))
      (src2_swiz (alu_decode (0x140f8000, 0x00430000, 0xa3000000)))
      (src2_neg (alu_decode (0x140f8000, 0x00430000, 0xa3000000)))
      = Some s2 /\
    disasm_alu (0x140f8000, 0x00430000, 0xa3000000) 0 =
      Some (alu_unknown (0x140f8000, 0x00430000, 0xa3000000) ++
            mnemonic_text
              (op (alu_decode (0x140f8000, 0x00430000, 0xa3000000))) ++
            TAB ++ dst ++ " = " ++ s1 ++ ", " ++ s2 ++ NL).
Proof.
  apply (disasm_alu_line 0x140f8000 0x00430000 0xa3000000 0).
  vm_compute. lia.
Defined.

(** ** An all-zero CF header word, in a run *)







(** With the cursor past the end of the buffer the count of a zero
    header word wraps: 3 header slots declared in a buffer of 2 slots
    put the cursor at slot 3, and the second entry is printed with the
    count [2 - 3] modulo 2^32 before the body reads outside the
    buffer. *)
Example zero_header_count_wraps :
  cf_entries (events_of (disasm [3; 0; 0; 0; 0; 0] 6 0)) =
    [(0, 3, 0); (1, 3, 4294967295)] /\
  is_fault (disasm [3; 0; 0; 0; 0; 0] 6 0) = true.
Proof. split; lazy; reflexivity. Qed.
